(** * POSIX ACL operations of pramfs (fs/pramfs/acl.c, release 1.5.1 for Linux 3.12)

    A shallow embedding of the codec ([pram_acl_load], [pram_acl_save]),
    the store adapter ([pram_get_acl], [pram_set_acl]), inheritance and
    chmod ([pram_init_acl], [pram_acl_chmod]) and the attribute handlers
    ([pram_xattr_list_acl_access], [pram_xattr_list_acl_default],
    [pram_xattr_get_acl], [pram_xattr_set_acl]), the properties of them
    that the specification states, and further properties read off the
    code.

    Conventions of the embedding.
    - An on-disk value ([__be16], [__be32], [__le16]) is its memory image, a
      list of bytes in address order; the conversions [cpu_to_*] and
      [*_to_cpu] are therefore the same on every host byte order.
    - A C pointer that may be [NULL], an object, or an [ERR_PTR] value is a
      [ptr]; [ACL_NOT_CACHED] is the raw pointer value -1, as in the kernel.
    - Whether an allocation succeeds is a parameter ([kmalloc_ok],
      [posix_acl_alloc_ok]), and so is what the memory held before ([junk],
      [stale]); a failed allocation takes the [-ENOMEM] exit of the
      source.
    - The declarations of [acl.h] and [xattr.h], and the kernel services the
      file calls, are not part of the translated file: they are the fields
      of the classes [AclLayout], [Xattr], [Kernel] and [KernelAcl]. *)

From Stdlib Require Import ZArith List Lia Bool.
From Stdlib Require String.
From Stdlib Require Import Strings.Byte.
Import ListNotations.
Local Open Scope Z_scope.

(** ** Error numbers and error pointers (linux/errno.h, linux/err.h) *)

Definition EPERM : Z := 1.
Definition EIO : Z := 5.
Definition ENOMEM : Z := 12.
Definition EACCES : Z := 13.
Definition EINVAL : Z := 22.
Definition ENOSYS : Z := 38.
Definition ENODATA : Z := 61.
Definition EOPNOTSUPP : Z := 95.
Definition MAX_ERRNO : Z := 4095.

Inductive ptr (A : Type) : Type :=
| NULL : ptr A
| Obj (a : A) : ptr A
| Raw (v : Z) : ptr A.
Arguments NULL {A}.
Arguments Obj {A} a.
Arguments Raw {A} v.

Definition ERR_PTR {A : Type} (error : Z) : ptr A :=
  if error =? 0 then NULL else Raw error.

Definition IS_ERR {A : Type} (p : ptr A) : bool :=
  match p with
  | Raw v => (- MAX_ERRNO <=? v) && (v <? 0)
  | _ => false
  end.

Definition PTR_ERR {A : Type} (p : ptr A) : Z :=
  match p with
  | Raw v => v
  | _ => 0
  end.

Definition ptr_of_option {A : Type} (o : option A) : ptr A :=
  match o with
  | Some a => Obj a
  | None => NULL
  end.

(** ** Bytes and byte order *)

Definition byte_of_Z (z : Z) : byte :=
  match Byte.of_N (Z.to_N (z mod 256)) with
  | Some b => b
  | None => x00
  end.

Definition Z_of_byte (b : byte) : Z := Z.of_N (Byte.to_N b).


Definition cpu_to_le16 (v : Z) : list byte :=
  [byte_of_Z v; byte_of_Z (Z.shiftr v 8)].

Definition cpu_to_be16 (v : Z) : list byte :=
  [byte_of_Z (Z.shiftr v 8); byte_of_Z v].

Definition cpu_to_be32 (v : Z) : list byte :=
  [byte_of_Z (Z.shiftr v 24); byte_of_Z (Z.shiftr v 16);
   byte_of_Z (Z.shiftr v 8); byte_of_Z v].

Definition be16_to_cpu (img : list byte) : Z :=
  match img with
  | [b0; b1] => Z.lor (Z.shiftl (Z_of_byte b0) 8) (Z_of_byte b1)
  | _ => 0
  end.

Definition be32_to_cpu (img : list byte) : Z :=
  match img with
  | [b0; b1; b2; b3] =>
      Z.lor (Z.shiftl (Z_of_byte b0) 24)
        (Z.lor (Z.shiftl (Z_of_byte b1) 16)
           (Z.lor (Z.shiftl (Z_of_byte b2) 8) (Z_of_byte b3)))
  | _ => 0
  end.

(** Conversion of an unsigned 16-bit value to [short]. *)
Definition to_short (v : Z) : Z :=
  let u := v mod 65536 in if u <? 32768 then u else u - 65536.

Fixpoint bytes_eqb (a b : list byte) : bool :=
  match a, b with
  | [], [] => true
  | x :: a', y :: b' => Byte.eqb x y && bytes_eqb a' b'
  | _, _ => false
  end.

(** ** Memory: reading and writing a field at a byte offset *)

Definition peek (buf : list byte) (off : Z) : byte :=
  nth (Z.to_nat off) buf x00.

(** The [len]-byte field at offset [off]. *)
Fixpoint field (buf : list byte) (off : Z) (len : nat) : list byte :=
  match len with
  | O => []
  | S len' => peek buf off :: field buf (off + 1) len'
  end.

(** Writing an image at [off]; inside the block this is an in-place update. *)
Definition poke (buf : list byte) (off : Z) (img : list byte) : list byte :=
  firstn (Z.to_nat off) buf ++ img
    ++ skipn (Z.to_nat off + length img) buf.

(** Two blocks hold the same bytes below offset [k]. *)
Definition agree_below (k : nat) (a b : list byte) : Prop :=
  forall i, (i < k)%nat -> nth i a x00 = nth i b x00.

(** ** The in-memory ACL (linux/posix_acl.h) *)

Definition ACL_USER_OBJ : Z := 1.
Definition ACL_USER : Z := 2.
Definition ACL_GROUP_OBJ : Z := 4.
Definition ACL_GROUP : Z := 8.
Definition ACL_MASK : Z := 16.
Definition ACL_OTHER : Z := 32.

Definition ACL_TYPE_ACCESS : Z := 32768.
Definition ACL_TYPE_DEFAULT : Z := 16384.

(** [e_id] is the union of [e_uid] and [e_gid]. *)
Record posix_acl_entry : Type := mk_entry {
  e_tag : Z;
  e_perm : Z;
  e_id : Z
}.

(** [a_entries]; [a_count] is the length. *)
Definition posix_acl : Type := list posix_acl_entry.

Definition a_count (acl : posix_acl) : Z := Z.of_nat (length acl).

Definition ACL_NOT_CACHED : ptr posix_acl := Raw (-1).

Definition is_not_cached (p : ptr posix_acl) : bool :=
  match p with
  | Raw v => v =? -1
  | _ => false
  end.

(** The closed set of tags. *)
Definition short_tag (t : Z) : bool :=
  (t =? ACL_USER_OBJ) || (t =? ACL_GROUP_OBJ) || (t =? ACL_MASK)
  || (t =? ACL_OTHER).

Definition long_tag (t : Z) : bool := (t =? ACL_USER) || (t =? ACL_GROUP).

Definition valid_tag (t : Z) : bool := short_tag t || long_tag t.

(** ** The on-disk layout (acl.h) *)

(** Modelled from the spec: the structs [pram_acl_header],
    [pram_acl_entry_short] and [pram_acl_entry] of acl.h are missing; the
    wire format gives a 4-byte header, a short record of a 2-byte tag and
    2-byte permission bits, and a long record that adds a 4-byte
    identifier. *)
Definition sizeof_pram_acl_header : Z := 4.
Definition sizeof_pram_acl_entry_short : Z := 4.
Definition sizeof_pram_acl_entry : Z := 8.
Definition offsetof_e_tag : Z := 0.
Definition offsetof_e_perm : Z := 2.
Definition offsetof_e_id : Z := 4.

(** The rest of acl.h: the version constant and the two inline helpers that
    relate a buffer size to an entry count. *)
Class AclLayout : Type := {
  PRAM_ACL_VERSION : Z;
  pram_acl_size : Z -> Z;
  pram_acl_count : Z -> Z
}.

(** Identity mapping in [init_user_ns]; what freshly allocated memory
    holds; and whether [kmalloc] of so many bytes and [posix_acl_alloc] of
    so many entries succeed. *)
Class Memory : Type := {
  make_kuid : Z -> Z;
  from_kuid : Z -> Z;
  make_kgid : Z -> Z;
  from_kgid : Z -> Z;
  junk : nat -> byte;
  stale : nat -> posix_acl_entry;
  kmalloc_ok : Z -> bool;
  posix_acl_alloc_ok : Z -> bool
}.

Section Codec.
Context {L : AclLayout} {M : Memory}.

(** A block of [n] bytes that was not written yet. *)
Definition fresh_block (n : Z) : list byte := map junk (seq 0 (Z.to_nat n)).

(** [kmalloc]; [None] is a null pointer. *)
Definition kmalloc (n : Z) : option (list byte) :=
  if kmalloc_ok n then Some (fresh_block n) else None.

(** [posix_acl_alloc]: the entries of the new ACL as they are before they
    are written; [None] is a null pointer. *)
Definition posix_acl_alloc (count : Z) : option (nat -> posix_acl_entry) :=
  if posix_acl_alloc_ok count then Some stale else None.

(** The body of the loop of [pram_acl_load]: [fuel] iterations are left,
    [n] is the index and [value] the read position; [None] is the jump to
    [fail]. *)
Fixpoint load_entries (buf : list byte) (end_ : Z) (fuel n : nat)
    (value : Z) : option (posix_acl * Z) :=
  match fuel with
  | O => Some ([], value)
  | S fuel' =>
      if value + sizeof_pram_acl_entry_short >? end_ then None
      else
        let tag :=
          to_short (be16_to_cpu (field buf (value + offsetof_e_tag) 2)) in
        let perm := be16_to_cpu (field buf (value + offsetof_e_perm) 2) in
        if short_tag tag then
          match load_entries buf end_ fuel' (S n)
                  (value + sizeof_pram_acl_entry_short) with
          | Some (rest, value') =>
              Some (mk_entry tag perm (e_id (stale n)) :: rest, value')
          | None => None
          end
        else if tag =? ACL_USER then
          let entry := value in
          let value := value + sizeof_pram_acl_entry in
          if value >? end_ then None
          else
            let id := be32_to_cpu (field buf (entry + offsetof_e_id) 4) in
            match load_entries buf end_ fuel' (S n) value with
            | Some (rest, value') =>
                Some (mk_entry tag perm (make_kuid id) :: rest, value')
            | None => None
            end
        else if tag =? ACL_GROUP then
          let entry := value in
          let value := value + sizeof_pram_acl_entry in
          if value >? end_ then None
          else
            let id := be32_to_cpu (field buf (entry + offsetof_e_id) 4) in
            match load_entries buf end_ fuel' (S n) value with
            | Some (rest, value') =>
                Some (mk_entry tag perm (make_kgid id) :: rest, value')
            | None => None
            end
        else None
  end.

(** Load ACL information from filesystem.  [value] is [None] for a null
    pointer. *)
Definition pram_acl_load (value : option (list byte)) (size : Z)
    : ptr posix_acl :=
  match value with
  | None => NULL
  | Some buf =>
      let end_ := size in
      if size <? sizeof_pram_acl_header then ERR_PTR (- EINVAL)
      else if negb (bytes_eqb (field buf 0 4)
                      (cpu_to_be32 PRAM_ACL_VERSION))
      then ERR_PTR (- EINVAL)
      else
        let value := sizeof_pram_acl_header in
        let count := pram_acl_count size in
        if count <? 0 then ERR_PTR (- EINVAL)
        else if count =? 0 then NULL
        else
          match posix_acl_alloc count with
          | None => ERR_PTR (- ENOMEM)
          | Some _ =>
              match load_entries buf end_ (Z.to_nat count) 0 value with
              | None => ERR_PTR (- EINVAL)
              | Some (acl, value) =>
                  if negb (value =? end_) then ERR_PTR (- EINVAL)
                  else Obj acl
              end
          end
  end.

(** The loop of [pram_acl_save]: [e] is the write position; [None] is the
    jump to [fail]. *)
Fixpoint save_entries (entries : list posix_acl_entry) (e : Z)
    (ext_acl : list byte) : option (list byte) :=
  match entries with
  | [] => Some ext_acl
  | acl_e :: rest =>
      let ext_acl :=
        poke ext_acl (e + offsetof_e_tag) (cpu_to_le16 (e_tag acl_e)) in
      let ext_acl :=
        poke ext_acl (e + offsetof_e_perm) (cpu_to_le16 (e_perm acl_e)) in
      if e_tag acl_e =? ACL_USER then
        save_entries rest (e + sizeof_pram_acl_entry)
          (poke ext_acl (e + offsetof_e_id)
             (cpu_to_be32 (from_kuid (e_id acl_e))))
      else if e_tag acl_e =? ACL_GROUP then
        save_entries rest (e + sizeof_pram_acl_entry)
          (poke ext_acl (e + offsetof_e_id)
             (cpu_to_be32 (from_kgid (e_id acl_e))))
      else if short_tag (e_tag acl_e) then
        save_entries rest (e + sizeof_pram_acl_entry_short) ext_acl
      else None
  end.

(** Save ACL information into the filesystem: the buffer and [*size]. *)
Definition pram_acl_save (acl : posix_acl) : ptr (list byte) * Z :=
  let size := pram_acl_size (a_count acl) in
  match
    kmalloc (sizeof_pram_acl_header + a_count acl * sizeof_pram_acl_entry)
  with
  | None => (ERR_PTR (- ENOMEM), size)
  | Some ext_acl =>
      let ext_acl := poke ext_acl 0 (cpu_to_be32 PRAM_ACL_VERSION) in
      let e := sizeof_pram_acl_header in
      match save_entries acl e ext_acl with
      | Some ext_acl => (Obj ext_acl, size)
      | None => (ERR_PTR (- EINVAL), size)
      end
  end.

(** [decode (encode acl)]: the buffer and size that [pram_acl_save]
    hands out, given to [pram_acl_load]. *)
Definition load_of_save (acl : posix_acl) : ptr posix_acl :=
  match pram_acl_save acl with
  | (Obj ext_acl, size) => pram_acl_load (Some ext_acl) size
  | (p, _) => ERR_PTR (PTR_ERR p)
  end.

End Codec.

(** ** Inodes, the ACL cache and the attribute store *)

Definition S_IFMT : Z := 61440.
Definition S_IFLNK : Z := 40960.
Definition S_IFDIR : Z := 16384.

Definition S_ISLNK (m : Z) : bool := Z.land m S_IFMT =? S_IFLNK.
Definition S_ISDIR (m : Z) : bool := Z.land m S_IFMT =? S_IFDIR.

(** What xattr.h and xattr.c provide.  [pram_xattr_get] is given the
    caller's buffer ([None] for a null pointer) and answers with its return
    value and the contents of the buffer afterwards; [pram_xattr_set]
    answers with its return value and the attribute store afterwards. *)
Class Xattr : Type := {
  xstore : Type;
  PRAM_XATTR_INDEX_POSIX_ACL_ACCESS : Z;
  PRAM_XATTR_INDEX_POSIX_ACL_DEFAULT : Z;
  pram_xattr_get :
    xstore -> Z -> String.string -> option (list byte) -> Z -> Z * list byte;
  pram_xattr_set :
    xstore -> Z -> String.string -> ptr (list byte) -> Z -> Z -> Z * xstore
}.

(** What happened to an inode, in program order: [posix_acl_equiv_mode]
    ran on [&inode->i_mode] and left [mode] there; [mark_inode_dirty]; a
    call of [pram_xattr_get]; a call of [pram_xattr_set]. *)
Inductive event : Type :=
| EvEquivMode (mode : Z)
| EvMarkDirty
| EvXattrGet (name_index : Z) (size : Z)
| EvXattrSet (name_index : Z) (value : ptr (list byte)) (size : Z).

(** [s_POSIX_ACL] is [test_opt(sb, POSIX_ACL)]. *)
Record super_block : Type := mk_sb {
  s_POSIX_ACL : bool
}.

(** The fields of [struct inode] the file uses, the attributes stored for
    the inode, and (a ghost field) the history of the calls on it. *)
Record inode {X : Xattr} : Type := mk_inode {
  i_mode : Z;
  i_ctime : Z;
  i_dirty : bool;
  i_acl : ptr posix_acl;
  i_default_acl : ptr posix_acl;
  i_sb : super_block;
  i_xattr : xstore;
  i_trace : list event
}.

(** [dentry->d_inode]; [d_sb] is the inode's super block. *)
Record dentry {X : Xattr} : Type := mk_dentry {
  d_inode : inode
}.

(** The kernel services: the clock, the POSIX ACL library and the
    ownership check.  [posix_acl_equiv_mode] answers with its return value
    and the mode it leaves in [*mode_p]; [posix_acl_from_xattr] answers
    with [inl e] for [ERR_PTR(e)] and otherwise with the ACL or null. *)
Class Kernel {X : Xattr} : Type := {
  CURRENT_TIME_SEC : Z;
  posix_acl_equiv_mode : posix_acl -> Z -> Z * Z;
  posix_acl_from_xattr : list byte -> Z -> Z + option posix_acl;
  posix_acl_valid : posix_acl -> Z;
  inode_owner_or_capable : inode -> bool
}.

Section Store.
Context {L : AclLayout} {M : Memory} {X : Xattr} {K : Kernel}.

Definition test_opt_POSIX_ACL (sb : super_block) : bool := s_POSIX_ACL sb.

Definition with_mode (i : inode) (m : Z) : inode :=
  mk_inode X m (i_ctime i) (i_dirty i) (i_acl i) (i_default_acl i) (i_sb i)
    (i_xattr i) (i_trace i).

Definition with_ctime (i : inode) (t : Z) : inode :=
  mk_inode X (i_mode i) t (i_dirty i) (i_acl i) (i_default_acl i) (i_sb i)
    (i_xattr i) (i_trace i).

Definition with_xattr (i : inode) (s : xstore) : inode :=
  mk_inode X (i_mode i) (i_ctime i) (i_dirty i) (i_acl i) (i_default_acl i)
    (i_sb i) s (i_trace i).

Definition record (i : inode) (e : event) : inode :=
  mk_inode X (i_mode i) (i_ctime i) (i_dirty i) (i_acl i) (i_default_acl i)
    (i_sb i) (i_xattr i) (i_trace i ++ [e]).

Definition mark_inode_dirty (i : inode) : inode :=
  record
    (mk_inode X (i_mode i) (i_ctime i) true (i_acl i) (i_default_acl i)
       (i_sb i) (i_xattr i) (i_trace i))
    EvMarkDirty.

(** [get_cached_acl]; [None] is [BUG()] on a type that has no slot. *)
Definition get_cached_acl (i : inode) (type : Z) : option (ptr posix_acl) :=
  if type =? ACL_TYPE_ACCESS then Some (i_acl i)
  else if type =? ACL_TYPE_DEFAULT then Some (i_default_acl i)
  else None.

(** [set_cached_acl]; its callers have checked the type. *)
Definition set_cached_acl (i : inode) (type : Z) (acl : ptr posix_acl)
    : inode :=
  if type =? ACL_TYPE_ACCESS then
    mk_inode X (i_mode i) (i_ctime i) (i_dirty i) acl (i_default_acl i)
      (i_sb i) (i_xattr i) (i_trace i)
  else if type =? ACL_TYPE_DEFAULT then
    mk_inode X (i_mode i) (i_ctime i) (i_dirty i) (i_acl i) acl
      (i_sb i) (i_xattr i) (i_trace i)
  else i.

(** The end of [pram_get_acl], from the decoding of what was read to the
    update of the cache. *)
Definition pram_get_acl_finish (ino : inode) (type retval : Z)
    (value : option (list byte)) : ptr posix_acl * inode :=
  let acl :=
    if retval >? 0 then pram_acl_load value retval
    else if (retval =? - ENODATA) || (retval =? - ENOSYS) then NULL
    else ERR_PTR retval in
  let ino :=
    if negb (IS_ERR acl) then set_cached_acl ino type acl else ino in
  (acl, ino).

(** [pram_get_acl]; [None] is [BUG()]. *)
Definition pram_get_acl (ino : inode) (type : Z)
    : option (ptr posix_acl * inode) :=
  if negb (test_opt_POSIX_ACL (i_sb ino)) then Some (NULL, ino)
  else
    match get_cached_acl ino type with
    | None => None
    | Some acl =>
        if negb (is_not_cached acl) then Some (acl, ino)
        else
          let name_index :=
            if type =? ACL_TYPE_ACCESS
            then Some PRAM_XATTR_INDEX_POSIX_ACL_ACCESS
            else if type =? ACL_TYPE_DEFAULT
            then Some PRAM_XATTR_INDEX_POSIX_ACL_DEFAULT
            else None in
          match name_index with
          | None => None
          | Some name_index =>
              let retval :=
                fst (pram_xattr_get (i_xattr ino) name_index
                       String.EmptyString None 0) in
              let ino := record ino (EvXattrGet name_index 0) in
              if retval >? 0 then
                match kmalloc retval with
                | None => Some (ERR_PTR (- ENOMEM), ino)
                | Some value =>
                    let '(retval', value) :=
                      pram_xattr_get (i_xattr ino) name_index
                        String.EmptyString (Some value) retval in
                    Some (pram_get_acl_finish
                            (record ino (EvXattrGet name_index retval))
                            type retval' (Some value))
                end
              else Some (pram_get_acl_finish ino type retval None)
          end
    end.

(** The end of [pram_set_acl], from the encoding of the ACL to the update
    of the cache. *)
Definition pram_set_acl_store (ino : inode) (type name_index : Z)
    (acl : option posix_acl) : Z * inode :=
  let '(value, size) :=
    match acl with
    | Some a => pram_acl_save a
    | None => (NULL, 0)
    end in
  if IS_ERR value then (PTR_ERR value, ino)
  else
    let '(error, xs) :=
      pram_xattr_set (i_xattr ino) name_index String.EmptyString
        value size 0 in
    let ino :=
      record (with_xattr ino xs) (EvXattrSet name_index value size) in
    let ino :=
      if error =? 0 then set_cached_acl ino type (ptr_of_option acl)
      else ino in
    (error, ino).

Definition pram_set_acl (ino : inode) (type : Z) (acl : option posix_acl)
    : Z * inode :=
  if S_ISLNK (i_mode ino) then (- EOPNOTSUPP, ino)
  else if negb (test_opt_POSIX_ACL (i_sb ino)) then (0, ino)
  else if type =? ACL_TYPE_ACCESS then
    let name_index := PRAM_XATTR_INDEX_POSIX_ACL_ACCESS in
    match acl with
    | Some a =>
        let '(error, mode) := posix_acl_equiv_mode a (i_mode ino) in
        let ino := record (with_mode ino mode) (EvEquivMode mode) in
        if error <? 0 then (error, ino)
        else
          let ino := with_ctime ino CURRENT_TIME_SEC in
          let ino := mark_inode_dirty ino in
          let acl := if error =? 0 then None else acl in
          pram_set_acl_store ino type name_index acl
    | None => pram_set_acl_store ino type name_index acl
    end
  else if type =? ACL_TYPE_DEFAULT then
    let name_index := PRAM_XATTR_INDEX_POSIX_ACL_DEFAULT in
    if negb (S_ISDIR (i_mode ino)) then
      (match acl with Some _ => - EACCES | None => 0 end, ino)
    else pram_set_acl_store ino type name_index acl
  else (- EINVAL, ino).

(** The [set] handler of both ACL attribute names. *)
Definition pram_xattr_set_acl (de : dentry) (name : String.string)
    (value : option (list byte)) (size flags type : Z) : Z * inode :=
  let ino := d_inode de in
  if negb (String.eqb name String.EmptyString) then (- EINVAL, ino)
  else if negb (test_opt_POSIX_ACL (i_sb ino)) then (- EOPNOTSUPP, ino)
  else if negb (inode_owner_or_capable ino) then (- EPERM, ino)
  else
    match value with
    | Some v =>
        match posix_acl_from_xattr v size with
        | inl e => (e, ino)
        | inr (Some acl) =>
            let error := posix_acl_valid acl in
            if negb (error =? 0) then (error, ino)
            else pram_set_acl ino type (Some acl)
        | inr None => pram_set_acl ino type None
        end
    | None => pram_set_acl ino type None
    end.

End Store.

(** ** Inheritance, chmod, and the list and get handlers *)

(** The attribute names of linux/posix_acl_xattr.h. *)
Section XattrNames.
Import String.

Definition POSIX_ACL_XATTR_ACCESS : String.string :=
  "system.posix_acl_access"%string.

Definition POSIX_ACL_XATTR_DEFAULT : String.string :=
  "system.posix_acl_default"%string.

End XattrNames.

(** The array a string literal stands for: its characters and the
    terminating zero; [sizeof] of the literal is its length. *)
Definition literal (s : String.string) : list byte :=
  String.list_byte_of_string s ++ [x00].

Definition sizeof_literal (s : String.string) : Z :=
  Z.of_nat (length (literal s)).

(** The kernel services of the remaining operations.  [posix_acl_create]
    answers with its return value, the ACL it leaves in [*acl] and the mode
    it leaves in [*mode_p]; [posix_acl_chmod] with its return value and the
    ACL it leaves in [*acl]; [posix_acl_to_xattr] with its return value and
    the caller's buffer afterwards. *)
Class KernelAcl : Type := {
  current_umask : Z;
  posix_acl_create : posix_acl -> Z -> Z * option posix_acl * Z;
  posix_acl_chmod : posix_acl -> Z -> Z * option posix_acl;
  posix_acl_to_xattr :
    posix_acl -> option (list byte) -> Z -> Z * option (list byte)
}.

Section Handlers.
Context {L : AclLayout} {M : Memory} {X : Xattr} {K : Kernel}
  {KA : KernelAcl}.

(** The second half of [pram_init_acl]: the new inode takes over the
    default ACL [acl] of its directory. *)
Definition pram_init_acl_inherit (ino : inode) (acl : posix_acl)
    : Z * inode :=
  let mode := i_mode ino in
  let '(error, ino) :=
    if S_ISDIR (i_mode ino) then pram_set_acl ino ACL_TYPE_DEFAULT (Some acl)
    else (0, ino) in
  if negb (error =? 0) then (error, ino)
  else
    let '(error, acl, mode) := posix_acl_create acl mode in
    if error <? 0 then (error, ino)
    else
      let ino := with_mode ino mode in
      if error >? 0 then pram_set_acl ino ACL_TYPE_ACCESS acl
      else (error, ino).

(** Initialize the ACLs of a new inode.  The result is the return value,
    the new inode and the directory afterwards; [None] is [BUG()], or the
    use of a pointer that is neither null, an ACL nor an error value. *)
Definition pram_init_acl (ino dir : inode) : option (Z * inode * inode) :=
  let first :=
    if negb (S_ISLNK (i_mode ino)) then
      let fetched :=
        if test_opt_POSIX_ACL (i_sb dir) then
          match pram_get_acl dir ACL_TYPE_DEFAULT with
          | None => None
          | Some (acl, dir) => Some (acl, dir)
          end
        else Some (NULL, dir) in
      match fetched with
      | None => None
      | Some (acl, dir) =>
          if IS_ERR acl then Some (inl (PTR_ERR acl), dir)
          else
            match acl with
            | NULL =>
                Some (inr (acl,
                           with_mode ino
                             (Z.land (i_mode ino) (Z.lnot current_umask))),
                      dir)
            | _ => Some (inr (acl, ino), dir)
            end
      end
    else Some (inr (NULL, ino), dir) in
  match first with
  | None => None
  | Some (inl error, dir) => Some (error, ino, dir)
  | Some (inr (acl, ino), dir) =>
      match acl with
      | NULL => Some (0, ino, dir)
      | Obj a =>
          if test_opt_POSIX_ACL (i_sb ino) then
            let '(error, ino) := pram_init_acl_inherit ino a in
            Some (error, ino, dir)
          else Some (0, ino, dir)
      | Raw _ => None
      end
  end.

(** Does chmod for an inode that may have an Access Control List; [None]
    as for [pram_init_acl]. *)
Definition pram_acl_chmod (ino : inode) : option (Z * inode) :=
  if negb (test_opt_POSIX_ACL (i_sb ino)) then Some (0, ino)
  else if S_ISLNK (i_mode ino) then Some (- EOPNOTSUPP, ino)
  else
    match pram_get_acl ino ACL_TYPE_ACCESS with
    | None => None
    | Some (acl, ino) =>
        if IS_ERR acl then Some (PTR_ERR acl, ino)
        else
          match acl with
          | NULL => Some (PTR_ERR acl, ino)
          | Obj a =>
              let '(error, acl) := posix_acl_chmod a (i_mode ino) in
              if negb (error =? 0) then Some (error, ino)
              else Some (pram_set_acl ino ACL_TYPE_ACCESS acl)
          | Raw _ => None
          end
    end.

(** The [list] handlers: the return value and the caller's list
    afterwards ([None] for a null pointer). *)
Definition pram_xattr_list_acl_access (de : dentry)
    (lst : option (list byte)) (list_size : Z) (name : String.string)
    (name_len type : Z) : Z * option (list byte) :=
  let size := sizeof_literal POSIX_ACL_XATTR_ACCESS in
  if negb (test_opt_POSIX_ACL (i_sb (d_inode de))) then (0, lst)
  else
    match lst with
    | Some l =>
        if size <=? list_size
        then (size, Some (poke l 0 (literal POSIX_ACL_XATTR_ACCESS)))
        else (size, lst)
    | None => (size, lst)
    end.

Definition pram_xattr_list_acl_default (de : dentry)
    (lst : option (list byte)) (list_size : Z) (name : String.string)
    (name_len type : Z) : Z * option (list byte) :=
  let size := sizeof_literal POSIX_ACL_XATTR_DEFAULT in
  if negb (test_opt_POSIX_ACL (i_sb (d_inode de))) then (0, lst)
  else
    match lst with
    | Some l =>
        if size <=? list_size
        then (size, Some (poke l 0 (literal POSIX_ACL_XATTR_DEFAULT)))
        else (size, lst)
    | None => (size, lst)
    end.

(** The [get] handler of both ACL attribute names: the return value, the
    inode and the caller's buffer afterwards; [None] as for
    [pram_init_acl]. *)
Definition pram_xattr_get_acl (de : dentry) (name : String.string)
    (buffer : option (list byte)) (size type : Z)
    : option (Z * inode * option (list byte)) :=
  let ino := d_inode de in
  if negb (String.eqb name String.EmptyString)
  then Some (- EINVAL, ino, buffer)
  else if negb (test_opt_POSIX_ACL (i_sb ino))
  then Some (- EOPNOTSUPP, ino, buffer)
  else
    match pram_get_acl ino type with
    | None => None
    | Some (acl, ino) =>
        if IS_ERR acl then Some (PTR_ERR acl, ino, buffer)
        else
          match acl with
          | NULL => Some (- ENODATA, ino, buffer)
          | Obj a =>
              let '(error, buffer) := posix_acl_to_xattr a buffer size in
              Some (error, ino, buffer)
          | Raw _ => None
          end
    end.

End Handlers.

(** ** Reference instances

    A layout, an attribute store and a kernel on which the operations can be
    run: the size helpers follow fs/ext2/acl.h, on which the file is based;
    the store keeps one value per name index; [posix_acl_equiv_mode] follows
    fs/posix_acl.c. *)

Definition ref_acl_size (count : Z) : Z :=
  if count <=? 4 then
    sizeof_pram_acl_header + count * sizeof_pram_acl_entry_short
  else
    sizeof_pram_acl_header + 4 * sizeof_pram_acl_entry_short
    + (count - 4) * sizeof_pram_acl_entry.

Definition ref_acl_count (size : Z) : Z :=
  let size := size - sizeof_pram_acl_header in
  let s := size - 4 * sizeof_pram_acl_entry_short in
  if s <? 0 then
    if negb (size mod sizeof_pram_acl_entry_short =? 0) then -1
    else size / sizeof_pram_acl_entry_short
  else
    if negb (s mod sizeof_pram_acl_entry =? 0) then -1
    else s / sizeof_pram_acl_entry + 4.

Definition ref_layout : AclLayout :=
  {| PRAM_ACL_VERSION := 1;
     pram_acl_size := ref_acl_size;
     pram_acl_count := ref_acl_count |}.

Definition ref_memory : Memory :=
  {| make_kuid := fun id => id;
     from_kuid := fun id => id;
     make_kgid := fun id => id;
     from_kgid := fun id => id;
     junk := fun _ => x5a;
     stale := fun _ => mk_entry 0 0 (-1);
     kmalloc_ok := fun _ => true;
     posix_acl_alloc_ok := fun _ => true |}.

(** The same, out of memory. *)
Definition no_memory : Memory :=
  {| make_kuid := fun id => id;
     from_kuid := fun id => id;
     make_kgid := fun id => id;
     from_kgid := fun id => id;
     junk := fun _ => x5a;
     stale := fun _ => mk_entry 0 0 (-1);
     kmalloc_ok := fun _ => false;
     posix_acl_alloc_ok := fun _ => false |}.

Definition ref_store : Type := Z -> option (list byte).

Definition ref_xattr_get (s : ref_store) (name_index : Z)
    (name : String.string) (buffer : option (list byte)) (size : Z)
    : Z * list byte :=
  match s name_index, buffer with
  | None, _ => (- ENODATA, [])
  | Some v, None => (Z.of_nat (length v), [])
  | Some v, Some b =>
      if size <? Z.of_nat (length v) then (- 34, b)
      else (Z.of_nat (length v), v)
  end.

Definition ref_xattr_set (s : ref_store) (name_index : Z)
    (name : String.string) (value : ptr (list byte)) (size flags : Z)
    : Z * ref_store :=
  match value with
  | NULL => (0, fun k => if k =? name_index then None else s k)
  | Obj b =>
      (0, fun k =>
            if k =? name_index then Some (firstn (Z.to_nat size) b) else s k)
  | Raw _ => (- 14, s)
  end.

(** A store that keeps values. *)
Definition ref_xattr : Xattr :=
  {| xstore := ref_store;
     PRAM_XATTR_INDEX_POSIX_ACL_ACCESS := 2;
     PRAM_XATTR_INDEX_POSIX_ACL_DEFAULT := 3;
     pram_xattr_get := ref_xattr_get;
     pram_xattr_set := ref_xattr_set |}.

(** A store whose writes fail with an I/O error. *)
Definition failing_xattr : Xattr :=
  {| xstore := ref_store;
     PRAM_XATTR_INDEX_POSIX_ACL_ACCESS := 2;
     PRAM_XATTR_INDEX_POSIX_ACL_DEFAULT := 3;
     pram_xattr_get := ref_xattr_get;
     pram_xattr_set := fun s _ _ _ _ _ => (- EIO, s) |}.

Definition S_IRWXO : Z := 7.
Definition S_IRWXG : Z := 56.
Definition S_IRWXUGO : Z := 511.

Fixpoint ref_equiv_mode_loop (acl : posix_acl) (mode not_equiv : Z)
    : option (Z * Z) :=
  match acl with
  | [] => Some (mode, not_equiv)
  | pa :: rest =>
      let t := e_tag pa in
      let p := Z.land (e_perm pa) S_IRWXO in
      if t =? ACL_USER_OBJ then
        ref_equiv_mode_loop rest (Z.lor mode (Z.shiftl p 6)) not_equiv
      else if t =? ACL_GROUP_OBJ then
        ref_equiv_mode_loop rest (Z.lor mode (Z.shiftl p 3)) not_equiv
      else if t =? ACL_OTHER then
        ref_equiv_mode_loop rest (Z.lor mode p) not_equiv
      else if t =? ACL_MASK then
        ref_equiv_mode_loop rest
          (Z.lor (Z.land mode (Z.lnot S_IRWXG)) (Z.shiftl p 3)) 1
      else if long_tag t then ref_equiv_mode_loop rest mode 1
      else None
  end.

Definition ref_posix_acl_equiv_mode (acl : posix_acl) (mode_p : Z) : Z * Z :=
  match ref_equiv_mode_loop acl 0 0 with
  | None => (- EINVAL, mode_p)
  | Some (mode, not_equiv) =>
      (not_equiv, Z.lor (Z.land mode_p (Z.lnot S_IRWXUGO)) mode)
  end.

Definition ref_kernel (X : Xattr) (capable : bool) : @Kernel X :=
  {| CURRENT_TIME_SEC := 1300000000;
     posix_acl_equiv_mode := ref_posix_acl_equiv_mode;
     posix_acl_from_xattr := fun _ _ => inr None;
     posix_acl_valid := fun _ => 0;
     inode_owner_or_capable := fun _ => capable |}.

(** Concrete ACLs, buffers and inodes for the examples. *)

Definition acl_owner_rwx : posix_acl := [mk_entry ACL_USER_OBJ 7 0].



(** The entries of mode 0644. *)
Definition acl_trivial_0644 : posix_acl :=
  [mk_entry ACL_USER_OBJ 6 0; mk_entry ACL_GROUP_OBJ 4 0;
   mk_entry ACL_OTHER 4 0].

Definition acl_extended : posix_acl :=
  [mk_entry ACL_USER_OBJ 7 0; mk_entry ACL_USER 6 42;
   mk_entry ACL_GROUP_OBJ 5 0; mk_entry ACL_MASK 6 0;
   mk_entry ACL_OTHER 4 0].

Definition buf_version_1 : list byte := [x00; x00; x00; x01].

(** A header and one owner record, tag and permission bits big-endian. *)
Definition buf_one_record : list byte :=
  buf_version_1 ++ [x00; x01; x00; x07].



Definition empty_store : ref_store := fun _ => None.

Definition regular_file (X : Xattr) (s : @xstore X) (opt : bool)
    (cached : ptr posix_acl) : @inode X :=
  mk_inode X 33188 0 false cached ACL_NOT_CACHED (mk_sb opt) s [].

Definition symlink (X : Xattr) (s : @xstore X) (opt : bool) : @inode X :=
  mk_inode X 41471 0 false ACL_NOT_CACHED ACL_NOT_CACHED (mk_sb opt) s [].

(** A regular file of mode 0644 (0100644) and a symbolic link (0120777)
    on the reference instances; the caller owns them. *)
Definition file_not_cached : @inode ref_xattr :=
  regular_file ref_xattr empty_store true ACL_NOT_CACHED.

Definition file_acl_off : @inode ref_xattr :=
  regular_file ref_xattr empty_store false ACL_NOT_CACHED.

Definition symlink_acl_off : @inode ref_xattr :=
  symlink ref_xattr empty_store false.

Definition symlink_acl_on : @inode ref_xattr :=
  symlink ref_xattr empty_store true.

(** The attribute name with the one character x. *)
Definition name_x : String.string :=
  String.String (Ascii.Ascii false false false true true true true false)
    String.EmptyString.

(** A regular file with an extended access ACL in the cache, on a store
    whose writes fail. *)
Definition file_cached_extended : @inode failing_xattr :=
  regular_file failing_xattr empty_store true (Obj acl_extended).

(** Further instances and inputs: a stand-in for the remaining kernel
    services (umask 022; [posix_acl_create] keeps the ACL and reports what
    [posix_acl_equiv_mode] reports; [posix_acl_chmod] keeps the ACL), a
    kernel whose parser refuses every value, and a store that cannot be
    read. *)
Definition ref_kernel_acl : KernelAcl :=
  {| current_umask := 18;
     posix_acl_create := fun acl mode =>
       let '(r, m) := ref_posix_acl_equiv_mode acl mode in (r, Some acl, m);
     posix_acl_chmod := fun acl _ => (0, Some acl);
     posix_acl_to_xattr := fun acl buffer _ =>
       (4 + 8 * a_count acl, buffer) |}.

Definition refusing_kernel_acl : KernelAcl :=
  {| current_umask := 18;
     posix_acl_create := fun acl mode => (- ENOMEM, None, mode);
     posix_acl_chmod := fun acl _ => (- ENOMEM, None);
     posix_acl_to_xattr := fun acl buffer _ => (- 34, buffer) |}.

Definition rejecting_kernel (X : Xattr) : @Kernel X :=
  {| CURRENT_TIME_SEC := 1300000000;
     posix_acl_equiv_mode := ref_posix_acl_equiv_mode;
     posix_acl_from_xattr := fun _ _ => inl (- EINVAL);
     posix_acl_valid := fun _ => - EINVAL;
     inode_owner_or_capable := fun _ => true |}.

Definition unreadable_xattr : Xattr :=
  {| xstore := ref_store;
     PRAM_XATTR_INDEX_POSIX_ACL_ACCESS := 2;
     PRAM_XATTR_INDEX_POSIX_ACL_DEFAULT := 3;
     pram_xattr_get := fun _ _ _ _ _ => (- EIO, []);
     pram_xattr_set := ref_xattr_set |}.

(** An ACL with a tag (3) outside the closed set. *)
Definition acl_bad_tag : posix_acl :=
  [mk_entry ACL_USER_OBJ 7 0; mk_entry 3 7 0].

(** Stores with an access attribute: of no bytes, and the buffer
    [buf_one_record]. *)
Definition store_empty_value : ref_store :=
  fun k => if k =? 2 then Some [] else None.

Definition store_one_record : ref_store :=
  fun k => if k =? 2 then Some buf_one_record else None.

Definition file_empty_value : @inode ref_xattr :=
  regular_file ref_xattr store_empty_value true ACL_NOT_CACHED.

Definition file_one_record : @inode ref_xattr :=
  regular_file ref_xattr store_one_record true ACL_NOT_CACHED.

Definition file_unreadable : @inode unreadable_xattr :=
  regular_file unreadable_xattr empty_store true ACL_NOT_CACHED.

(** Directories of mode 0755 (040755): without and with a cached default
    ACL, and on the store whose writes fail. *)
Definition directory (X : Xattr) (s : @xstore X) (opt : bool)
    (default : ptr posix_acl) : @inode X :=
  mk_inode X 16877 0 false ACL_NOT_CACHED default (mk_sb opt) s [].

Definition dir_plain : @inode ref_xattr :=
  directory ref_xattr empty_store true ACL_NOT_CACHED.

Definition dir_acl_off : @inode ref_xattr :=
  directory ref_xattr empty_store false ACL_NOT_CACHED.

Definition dir_with_default : @inode ref_xattr :=
  directory ref_xattr empty_store true (Obj acl_extended).

Definition dir_unreadable : @inode unreadable_xattr :=
  directory unreadable_xattr empty_store true ACL_NOT_CACHED.

Definition dir_with_default_failing : @inode failing_xattr :=
  directory failing_xattr empty_store true (Obj acl_extended).

Definition new_dir_failing : @inode failing_xattr :=
  directory failing_xattr empty_store true ACL_NOT_CACHED.

Definition file_cached_extended_ref : @inode ref_xattr :=
  regular_file ref_xattr empty_store true (Obj acl_extended).

Definition list_32 : list byte := repeat xff 32.

Definition list_24 : list byte := repeat xff 24.

(** A store that answers the size query but whose read into a buffer
    fails with an I/O error, and a store without attribute support. *)
Definition read_fails_xattr : Xattr :=
  {| xstore := ref_store;
     PRAM_XATTR_INDEX_POSIX_ACL_ACCESS := 2;
     PRAM_XATTR_INDEX_POSIX_ACL_DEFAULT := 3;
     pram_xattr_get := fun s name_index name buffer size =>
       match buffer with
       | None => ref_xattr_get s name_index name None size
       | Some b => (- EIO, b)
       end;
     pram_xattr_set := ref_xattr_set |}.

Definition unsupported_xattr : Xattr :=
  {| xstore := ref_store;
     PRAM_XATTR_INDEX_POSIX_ACL_ACCESS := 2;
     PRAM_XATTR_INDEX_POSIX_ACL_DEFAULT := 3;
     pram_xattr_get := fun _ _ _ _ _ => (- ENOSYS, []);
     pram_xattr_set := fun s _ _ _ _ _ => (- ENOSYS, s) |}.

Definition file_read_fails : @inode read_fails_xattr :=
  regular_file read_fails_xattr store_one_record true ACL_NOT_CACHED.

Definition file_unsupported : @inode unsupported_xattr :=
  regular_file unsupported_xattr empty_store true ACL_NOT_CACHED.

(** A new regular file requested with mode 0666 (0100666). *)
Definition new_file_0666 : @inode ref_xattr :=
  mk_inode ref_xattr 33206 0 false ACL_NOT_CACHED ACL_NOT_CACHED
    (mk_sb true) empty_store [].

(** ** The records of a buffer, as [pram_acl_load] walks them *)

(** The tag of the record at [off], read big-endian as the loop of
    [pram_acl_load] reads it, and the size its tag announces. *)
Definition record_tag (buf : list byte) (off : Z) : Z :=
  to_short (be16_to_cpu (field buf off 2)).



Definition record_size (t : Z) : Z :=
  if long_tag t then sizeof_pram_acl_entry else sizeof_pram_acl_entry_short.

(** Where the [k]-th record after [off] starts, when the records before it
    all carry a tag of the closed set. *)
Fixpoint record_offset (buf : list byte) (k : nat) (off : Z) : option Z :=
  match k with
  | O => Some off
  | S k' =>
      let t := record_tag buf off in
      if valid_tag t then record_offset buf k' (off + record_size t)
      else None
  end.


(** The header is complete and carries the supported version. *)
Definition valid_header {L : AclLayout} (buf : list byte) (size : Z) : Prop :=
  sizeof_pram_acl_header <= size
  /\ be32_to_cpu (field buf 0 4) = PRAM_ACL_VERSION mod 2 ^ 32.

(* ================================================================== *)
(** * Properties *)

(** ** Bytes *)

Lemma Z_of_byte_of_Z (z : Z) : Z_of_byte (byte_of_Z z) = z mod 256.
Proof.
  unfold Z_of_byte, byte_of_Z.
  assert (Hr : 0 <= z mod 256 < 256) by (apply Z.mod_pos_bound; lia).
  destruct (Byte.of_N (Z.to_N (z mod 256))) as [b|] eqn:E.
  - apply Byte.to_of_N in E. rewrite E. lia.
  - apply Byte.of_N_None_iff in E. lia.
Qed.

Lemma Z_of_byte_range (b : byte) : 0 <= Z_of_byte b < 256.
Proof.
  unfold Z_of_byte. pose proof (Byte.to_N_bounded b). lia.
Qed.

Lemma byte_eqb_eq (x y : byte) : Byte.eqb x y = true <-> x = y.
Proof.
  split.
  - apply Byte.byte_dec_bl.
  - apply Byte.byte_dec_lb.
Qed.

Lemma bytes_eqb_eq (a b : list byte) : bytes_eqb a b = true <-> a = b.
Proof.
  revert b. induction a as [|x a IH]; intros [|y b]; simpl;
    try (split; [discriminate | discriminate]); try tauto.
  rewrite andb_true_iff, byte_eqb_eq, IH.
  split; [intros [-> ->]; reflexivity | intros H; inversion H; auto].
Qed.

Lemma be32_of_cpu_to_be32 (v : Z) :
  be32_to_cpu (cpu_to_be32 v) = v mod 2 ^ 32.
Proof.
  unfold be32_to_cpu, cpu_to_be32. rewrite !Z_of_byte_of_Z.
  apply Z.bits_inj'. intros n Hn.
  rewrite !Z.lor_spec.
  destruct (Z.ltb_spec n 32).
  - rewrite Z.mod_pow2_bits_low by lia.
    rewrite !Z.shiftl_spec by lia.
    change 256 with (2 ^ 8).
    destruct (Z.ltb_spec n 8).
    + rewrite (Z.testbit_neg_r _ (n - 24)), (Z.testbit_neg_r _ (n - 16)),
        (Z.testbit_neg_r _ (n - 8)) by lia.
      rewrite Z.mod_pow2_bits_low by lia. reflexivity.
    + destruct (Z.ltb_spec n 16).
      * rewrite (Z.testbit_neg_r _ (n - 24)), (Z.testbit_neg_r _ (n - 16))
          by lia.
        rewrite Z.mod_pow2_bits_low by lia.
        rewrite Z.mod_pow2_bits_high by lia.
        rewrite Z.shiftr_spec by lia.
        rewrite orb_false_r. simpl. f_equal. lia.
      * destruct (Z.ltb_spec n 24).
        -- rewrite (Z.testbit_neg_r _ (n - 24)) by lia.
           rewrite (Z.mod_pow2_bits_low _ 8 (n - 16)) by lia.
           rewrite !Z.mod_pow2_bits_high by lia.
           rewrite Z.shiftr_spec by lia.
           rewrite !orb_false_r. simpl. f_equal. lia.
        -- rewrite (Z.mod_pow2_bits_low _ 8 (n - 24)) by lia.
           rewrite !Z.mod_pow2_bits_high by lia.
           rewrite Z.shiftr_spec by lia.
           rewrite !orb_false_r. f_equal. lia.
  - rewrite Z.mod_pow2_bits_high by lia.
    rewrite !Z.shiftl_spec by lia.
    change 256 with (2 ^ 8).
    rewrite !Z.mod_pow2_bits_high by lia. reflexivity.
Qed.
Lemma byte_of_Z_of_byte (b : byte) : byte_of_Z (Z_of_byte b) = b.
Proof.
  unfold byte_of_Z, Z_of_byte.
  pose proof (Byte.to_N_bounded b).
  rewrite Z.mod_small by lia.
  rewrite N2Z.id, Byte.of_to_N. reflexivity.
Qed.

Lemma byte_of_Z_mod (z : Z) (b : byte) :
  z mod 256 = Z_of_byte b -> byte_of_Z z = b.
Proof.
  intros H. rewrite <- (byte_of_Z_of_byte b), <- H.
  unfold byte_of_Z. rewrite Z.mod_mod by lia. reflexivity.
Qed.

Lemma testbit_byte_high (b : byte) (n : Z) :
  8 <= n -> Z.testbit (Z_of_byte b) n = false.
Proof.
  intros Hn. pose proof (Z_of_byte_range b).
  rewrite <- (Z.mod_small (Z_of_byte b) (2 ^ 8)) by lia.
  apply Z.mod_pow2_bits_high. lia.
Qed.

Ltac byte_bits :=
  repeat match goal with
    | |- context [Z.testbit (Z_of_byte ?b) ?i] =>
        first [ rewrite (testbit_byte_high b i) by lia
              | rewrite (Z.testbit_neg_r (Z_of_byte b) i) by lia ]
    end;
  rewrite ?orb_false_r, ?orb_false_l.

Lemma cpu_to_be32_of_be32 (b0 b1 b2 b3 : byte) :
  cpu_to_be32 (be32_to_cpu [b0; b1; b2; b3]) = [b0; b1; b2; b3].
Proof.
  unfold cpu_to_be32, be32_to_cpu.
  repeat f_equal; apply byte_of_Z_mod; change 256 with (2 ^ 8);
    apply Z.bits_inj'; intros n Hn;
    (destruct (Z.ltb_spec n 8);
     [ rewrite Z.mod_pow2_bits_low by lia;
       rewrite ?Z.shiftr_spec by lia;
       rewrite !Z.lor_spec, !Z.shiftl_spec by lia;
       byte_bits; try reflexivity; f_equal; lia
     | rewrite Z.mod_pow2_bits_high by lia;
       symmetry; apply testbit_byte_high; lia ]).
Qed.

Lemma field_4 (buf : list byte) (off : Z) :
  field buf off 4
  = [peek buf off; peek buf (off + 1); peek buf (off + 1 + 1);
     peek buf (off + 1 + 1 + 1)].
Proof. reflexivity. Qed.

Lemma cpu_to_be32_mod (v : Z) : cpu_to_be32 (v mod 2 ^ 32) = cpu_to_be32 v.
Proof.
  rewrite <- be32_of_cpu_to_be32. unfold cpu_to_be32 at 1 2.
  apply cpu_to_be32_of_be32.
Qed.

(** The header check of the source compares memory images; it succeeds
    exactly when the big-endian value of the field is the version. *)
Lemma version_check_iff {L : AclLayout} (buf : list byte) :
  bytes_eqb (field buf 0 4) (cpu_to_be32 PRAM_ACL_VERSION) = true
  <-> be32_to_cpu (field buf 0 4) = PRAM_ACL_VERSION mod 2 ^ 32.
Proof.
  rewrite bytes_eqb_eq. split.
  - intros ->. apply be32_of_cpu_to_be32.
  - intros H. rewrite <- cpu_to_be32_mod, <- H, field_4.
    symmetry. apply cpu_to_be32_of_be32.
Qed.

(** ** Writes into a block *)

Lemma poke_length (buf : list byte) (off : Z) (img : list byte) :
  (Z.to_nat off + length img <= length buf)%nat ->
  length (poke buf off img) = length buf.
Proof.
  intros H. unfold poke.
  rewrite !length_app, length_firstn, length_skipn. lia.
Qed.

Lemma poke_agree_below (buf : list byte) (off : Z) (img : list byte)
    (k : nat) :
  (k <= Z.to_nat off)%nat -> (Z.to_nat off <= length buf)%nat ->
  agree_below k (poke buf off img) buf.
Proof.
  intros Hk Hoff i Hi. unfold poke.
  rewrite app_nth1 by (rewrite length_firstn; lia).
  rewrite nth_firstn.
  destruct (Nat.ltb_spec i (Z.to_nat off)); [reflexivity|lia].
Qed.

Lemma poke_peek (buf : list byte) (off : Z) (img : list byte) (i : nat) :
  0 <= off -> (Z.to_nat off <= length buf)%nat -> (i < length img)%nat ->
  peek (poke buf off img) (off + Z.of_nat i) = nth i img x00.
Proof.
  intros H0 Hoff Hi. unfold peek, poke.
  replace (Z.to_nat (off + Z.of_nat i)) with (Z.to_nat off + i)%nat by lia.
  rewrite app_nth2 by (rewrite length_firstn; lia).
  rewrite length_firstn.
  replace (Z.to_nat off + i - Nat.min (Z.to_nat off) (length buf))%nat
    with i by lia.
  apply app_nth1. exact Hi.
Qed.

Lemma poke_field_2 (buf : list byte) (off : Z) (x y : byte) :
  0 <= off -> (Z.to_nat off <= length buf)%nat ->
  field (poke buf off [x; y]) off 2 = [x; y].
Proof.
  intros H0 Hoff. cbn [field].
  pose proof (poke_peek buf off [x; y] 0 H0 Hoff) as P0.
  pose proof (poke_peek buf off [x; y] 1 H0 Hoff) as P1.
  rewrite Z.add_0_r in P0. change (Z.of_nat 1) with 1 in P1.
  rewrite P0, P1 by (simpl; lia). reflexivity.
Qed.

Lemma poke_field_4 (buf : list byte) (off : Z) (x y z t : byte) :
  0 <= off -> (Z.to_nat off <= length buf)%nat ->
  field (poke buf off [x; y; z; t]) off 4 = [x; y; z; t].
Proof.
  intros H0 Hoff. cbn [field].
  pose proof (poke_peek buf off [x; y; z; t] 0 H0 Hoff) as P0.
  pose proof (poke_peek buf off [x; y; z; t] 1 H0 Hoff) as P1.
  pose proof (poke_peek buf off [x; y; z; t] 2 H0 Hoff) as P2.
  pose proof (poke_peek buf off [x; y; z; t] 3 H0 Hoff) as P3.
  rewrite Z.add_0_r in P0. change (Z.of_nat 1) with 1 in P1.
  replace (off + 1 + 1) with (off + Z.of_nat 2) by lia.
  replace (off + Z.of_nat 2 + 1) with (off + Z.of_nat 3) by lia.
  rewrite P0, P1, P2, P3 by (simpl; lia). reflexivity.
Qed.

Lemma agree_below_trans (k : nat) (a b c : list byte) :
  agree_below k a b -> agree_below k b c -> agree_below k a c.
Proof. intros H1 H2 i Hi. rewrite H1, H2 by exact Hi. reflexivity. Qed.

Lemma agree_below_le (k k' : nat) (a b : list byte) :
  (k <= k')%nat -> agree_below k' a b -> agree_below k a b.
Proof. intros Hk H i Hi. apply H. lia. Qed.

Lemma field_agree (a b : list byte) (k len : nat) :
  forall off,
    agree_below k a b -> 0 <= off -> (Z.to_nat off + len <= k)%nat ->
    field a off len = field b off len.
Proof.
  induction len as [|len IH]; intros off Hab H0 Hk; [reflexivity|].
  cbn [field]. f_equal.
  - unfold peek. apply Hab. lia.
  - apply IH; [exact Hab|lia|lia].
Qed.

(** ** The codec *)

Section CodecProps.
Context {L : AclLayout} {M : Memory}.

Lemma ERR_PTR_EINVAL_not_obj (A : Type) (a : A) :
  @ERR_PTR A (- EINVAL) <> Obj a.
Proof. discriminate. Qed.

Lemma load_entries_length (buf : list byte) (end_ : Z) (fuel : nat) :
  forall n value acl value',
    load_entries buf end_ fuel n value = Some (acl, value') ->
    length acl = fuel.
Proof.
  induction fuel as [|fuel IH]; intros n value acl value' H;
    cbn [load_entries] in H.
  - inversion H. reflexivity.
  - destruct (value + sizeof_pram_acl_entry_short >? end_); [discriminate|].
    destruct (short_tag _).
    + destruct (load_entries buf end_ fuel (S n) _) as [[r v]|] eqn:E;
        [|discriminate].
      inversion H; subst. simpl. f_equal. eapply IH; eassumption.
    + destruct (_ =? ACL_USER).
      * destruct (_ >? end_); [discriminate|].
        destruct (load_entries buf end_ fuel (S n) _) as [[r v]|] eqn:E;
          [|discriminate].
        inversion H; subst. simpl. f_equal. eapply IH; eassumption.
      * destruct (_ =? ACL_GROUP); [|discriminate].
        destruct (_ >? end_); [discriminate|].
        destruct (load_entries buf end_ fuel (S n) _) as [[r v]|] eqn:E;
          [|discriminate].
        inversion H; subst. simpl. f_equal. eapply IH; eassumption.
Qed.

(** What one successful iteration of the loop has checked. *)
Lemma load_entries_step (buf : list byte) (end_ : Z) (fuel n : nat)
    (value : Z) (acl : posix_acl) (value' : Z) :
  load_entries buf end_ (S fuel) n value = Some (acl, value') ->
  valid_tag (record_tag buf value) = true
  /\ value + record_size (record_tag buf value) <= end_
  /\ exists rest,
       load_entries buf end_ fuel (S n)
         (value + record_size (record_tag buf value)) = Some (rest, value').
Proof.
  cbn [load_entries].
  unfold record_tag, record_size, valid_tag, long_tag, offsetof_e_tag.
  rewrite Z.add_0_r.
  set (t := to_short (be16_to_cpu (field buf value 2))).
  destruct (Z.gtb_spec (value + sizeof_pram_acl_entry_short) end_) as [|Hs];
    [discriminate|].
  destruct (short_tag t) eqn:Es.
  - assert (Hl : (t =? ACL_USER) || (t =? ACL_GROUP) = false).
    { unfold short_tag in Es. unfold ACL_USER_OBJ, ACL_GROUP_OBJ, ACL_MASK,
        ACL_OTHER, ACL_USER, ACL_GROUP in *. lia. }
    rewrite Hl.
    destruct (load_entries buf end_ fuel (S n) _) as [[r v]|] eqn:E;
      [|discriminate].
    intros H; inversion H; subst. repeat split; eauto.
  - destruct (t =? ACL_USER) eqn:Eu; simpl.
    + destruct (Z.gtb_spec (value + sizeof_pram_acl_entry) end_) as [|Hl];
        [discriminate|].
      destruct (load_entries buf end_ fuel (S n) _) as [[r v]|] eqn:E;
        [|discriminate].
      intros H; inversion H; subst. repeat split; eauto.
    + destruct (t =? ACL_GROUP) eqn:Eg; [|discriminate].
      destruct (Z.gtb_spec (value + sizeof_pram_acl_entry) end_) as [|Hl];
        [discriminate|].
      destruct (load_entries buf end_ fuel (S n) _) as [[r v]|] eqn:E;
        [|discriminate].
      intros H; inversion H; subst. repeat split; eauto.
Qed.

(** A loop that ends normally has walked [fuel] records, each of them with
    a tag of the closed set and inside the buffer. *)
Lemma load_entries_sound (buf : list byte) (end_ : Z) (fuel : nat) :
  forall n value acl value',
    load_entries buf end_ fuel n value = Some (acl, value') ->
    record_offset buf fuel value = Some value'
    /\ forall k off,
         (k < fuel)%nat -> record_offset buf k value = Some off ->
         valid_tag (record_tag buf off) = true
         /\ off + record_size (record_tag buf off) <= end_.
Proof.
  induction fuel as [|fuel IH]; intros n value acl value' H.
  - simpl in H. inversion H; subst. split; [reflexivity|]. intros; lia.
  - apply load_entries_step in H. destruct H as (Ht & Hb & rest & Hr).
    apply IH in Hr. destruct Hr as [Ho Hall].
    split.
    + simpl. rewrite Ht. exact Ho.
    + intros [|k] off Hk Hoff.
      * simpl in Hoff. inversion Hoff; subst. auto.
      * simpl in Hoff. rewrite Ht in Hoff. apply (Hall k off); [lia|auto].
Qed.

(** C2: a non-null buffer shorter than the header, and a buffer whose
    big-endian version field is not the supported version, are answered
    with [ERR_PTR(-EINVAL)], never with an ACL. *)
Theorem pram_acl_load_bad_header (buf : list byte) (size : Z) :
  size < sizeof_pram_acl_header
  \/ be32_to_cpu (field buf 0 4) <> PRAM_ACL_VERSION mod 2 ^ 32 ->
  pram_acl_load (Some buf) size = ERR_PTR (- EINVAL)
  /\ forall acl, pram_acl_load (Some buf) size <> Obj acl.
Proof.
  intros H.
  assert (E : pram_acl_load (Some buf) size = ERR_PTR (- EINVAL)).
  { unfold pram_acl_load.
    destruct (Z.ltb_spec size sizeof_pram_acl_header) as [|Hs];
      [reflexivity|].
    destruct H as [H|H]; [lia|].
    destruct (bytes_eqb _ _) eqn:Ev; [|reflexivity].
    apply version_check_iff in Ev. contradiction. }
  split; [exact E|]. intros acl. rewrite E. discriminate.
Qed.

Lemma pram_acl_load_valid_header (buf : list byte) (size : Z) :
  valid_header buf size ->
  pram_acl_load (Some buf) size =
    let count := pram_acl_count size in
    if count <? 0 then ERR_PTR (- EINVAL)
    else if count =? 0 then NULL
    else if negb (posix_acl_alloc_ok count) then ERR_PTR (- ENOMEM)
    else
      match load_entries buf size (Z.to_nat count) 0
              sizeof_pram_acl_header with
      | None => ERR_PTR (- EINVAL)
      | Some (acl, value) =>
          if negb (value =? size) then ERR_PTR (- EINVAL) else Obj acl
      end.
Proof.
  intros [Hs Hv]. unfold pram_acl_load, posix_acl_alloc.
  destruct (Z.ltb_spec size sizeof_pram_acl_header); [lia|].
  apply version_check_iff in Hv. rewrite Hv. cbv zeta. cbn [negb].
  destruct (_ <? 0); [reflexivity|].
  destruct (_ =? 0); [reflexivity|].
  destruct (posix_acl_alloc_ok _); reflexivity.
Qed.









(** C4, as the code has it: a null pointer is answered with [NULL]; so is
    a buffer with a valid header whose size stands for 0 entries; and an
    ACL that [pram_acl_load] returns has at least one entry, as many as
    the size stands for.  (A non-null buffer of size 0 is shorter than the
    header and is an error.) *)
Theorem pram_acl_load_absent :
  (forall size, pram_acl_load None size = NULL)
  /\ (forall buf size,
        valid_header buf size -> pram_acl_count size = 0 ->
        pram_acl_load (Some buf) size = NULL)
  /\ (forall value size acl,
        pram_acl_load value size = Obj acl ->
        1 <= a_count acl /\ a_count acl = pram_acl_count size).
Proof.
  split; [reflexivity|]. split.
  - intros buf size Hh Hc.
    rewrite (pram_acl_load_valid_header _ _ Hh). cbv zeta.
    rewrite Hc. reflexivity.
  - intros [buf|] size acl H; [|discriminate].
    unfold pram_acl_load in H.
    destruct (size <? sizeof_pram_acl_header); [discriminate|].
    destruct (negb _); [discriminate|].
    destruct (Z.ltb_spec (pram_acl_count size) 0); [discriminate|].
    destruct (Z.eqb_spec (pram_acl_count size) 0); [discriminate|].
    destruct (posix_acl_alloc _); [|discriminate].
    destruct (load_entries _ _ _ _ _) as [[a v]|] eqn:El; [|discriminate].
    destruct (negb _); [discriminate|].
    inversion H; subst.
    apply load_entries_length in El. unfold a_count. rewrite El. lia.
Qed.

(** One entry written by [pram_acl_save]: the loop goes on behind the
    record, the block keeps its size and its bytes below the record, and
    the record starts with the little-endian image of the tag. *)
Lemma save_entries_cons_inv (a : posix_acl_entry) (rest : list posix_acl_entry)
    (e : Z) (buf buf' : list byte) :
  0 <= e -> (Z.to_nat e + 8 <= length buf)%nat ->
  save_entries (a :: rest) e buf = Some buf' ->
  exists e' bufk,
    save_entries rest e' bufk = Some buf'
    /\ e + 4 <= e' <= e + 8
    /\ length bufk = length buf
    /\ agree_below (Z.to_nat e) bufk buf
    /\ field bufk e 2 = cpu_to_le16 (e_tag a).
Proof.
  intros H0 Hlen. cbn [save_entries].
  unfold offsetof_e_tag, offsetof_e_perm, offsetof_e_id,
    sizeof_pram_acl_entry, sizeof_pram_acl_entry_short.
  rewrite Z.add_0_r.
  set (b1 := poke buf e (cpu_to_le16 (e_tag a))).
  set (b2 := poke b1 (e + 2) (cpu_to_le16 (e_perm a))).
  assert (L1 : length b1 = length buf)
    by (apply poke_length; simpl; lia).
  assert (L2 : length b2 = length buf)
    by (unfold b2; rewrite poke_length; simpl; lia).
  assert (A1 : agree_below (Z.to_nat e) b1 buf)
    by (apply poke_agree_below; lia).
  assert (A2 : agree_below (Z.to_nat e + 2) b2 b1)
    by (apply poke_agree_below; lia).
  assert (F1 : field b1 e 2 = cpu_to_le16 (e_tag a))
    by (apply poke_field_2; lia).
  assert (F2 : field b2 e 2 = cpu_to_le16 (e_tag a))
    by (rewrite <- F1; apply (field_agree _ _ (Z.to_nat e + 2)); auto; lia).
  assert (A2' : agree_below (Z.to_nat e) b2 buf).
  { eapply agree_below_trans; [|exact A1].
    eapply agree_below_le; [|exact A2]. lia. }
  assert (Hid : forall img : list byte, length img = 4%nat ->
            length (poke b2 (e + 4) img) = length buf
            /\ agree_below (Z.to_nat e) (poke b2 (e + 4) img) buf
            /\ field (poke b2 (e + 4) img) e 2 = cpu_to_le16 (e_tag a)).
  { intros img Hi.
    assert (A3 : agree_below (Z.to_nat e + 4) (poke b2 (e + 4) img) b2)
      by (apply poke_agree_below; lia).
    split; [rewrite poke_length; lia|]. split.
    - eapply agree_below_trans; [|exact A2'].
      eapply agree_below_le; [|exact A3]. lia.
    - rewrite <- F2. apply (field_agree _ _ (Z.to_nat e + 4)); auto; lia. }
  destruct (e_tag a =? ACL_USER).
  - intros H. destruct (Hid (cpu_to_be32 (from_kuid (e_id a))) eq_refl)
      as (Hl & Ha & Hf).
    eexists _, _. split; [exact H|]. repeat split; auto; lia.
  - destruct (e_tag a =? ACL_GROUP).
    + intros H. destruct (Hid (cpu_to_be32 (from_kgid (e_id a))) eq_refl)
        as (Hl & Ha & Hf).
      eexists _, _. split; [exact H|]. repeat split; auto; lia.
    + destruct (short_tag (e_tag a)); [|discriminate].
      intros H. eexists _, _. split; [exact H|]. repeat split; auto; lia.
Qed.

Lemma save_entries_agree (entries : list posix_acl_entry) :
  forall e buf buf',
    0 <= e -> (Z.to_nat e + 8 * length entries <= length buf)%nat ->
    save_entries entries e buf = Some buf' ->
    agree_below (Z.to_nat e) buf' buf /\ length buf' = length buf.
Proof.
  induction entries as [|a rest IH]; intros e buf buf' H0 Hlen H.
  - cbn [save_entries] in H. inversion H; subst.
    split; [intros i _; reflexivity|reflexivity].
  - cbn [length] in Hlen.
    apply save_entries_cons_inv in H; [|lia|lia].
    destruct H as (e' & bufk & Hr & He & Hl & Ha & _).
    apply IH in Hr; [|lia|lia]. destruct Hr as [Ha' Hl'].
    split; [|congruence].
    eapply agree_below_trans; [|exact Ha].
    eapply agree_below_le; [|exact Ha']. lia.
Qed.

Lemma save_entries_head_tag (a : posix_acl_entry)
    (rest : list posix_acl_entry) (e : Z) (buf buf' : list byte) :
  0 <= e -> (Z.to_nat e + 8 * length (a :: rest) <= length buf)%nat ->
  save_entries (a :: rest) e buf = Some buf' ->
  field buf' e 2 = cpu_to_le16 (e_tag a).
Proof.
  intros H0 Hlen H. cbn [length] in Hlen.
  apply save_entries_cons_inv in H; [|lia|lia].
  destruct H as (e' & bufk & Hr & He & Hl & Ha & Hf).
  apply save_entries_agree in Hr; [|lia|lia]. destruct Hr as [Ha' _].
  rewrite <- Hf. apply (field_agree _ _ (Z.to_nat e')); auto; lia.
Qed.

(** Entries with tags of the closed set are all written. *)
Lemma save_entries_valid (entries : list posix_acl_entry) :
  Forall (fun e => valid_tag (e_tag e) = true) entries ->
  forall e buf, exists buf', save_entries entries e buf = Some buf'.
Proof.
  induction 1 as [|a rest Ha _ IH]; intros e buf.
  - eexists. reflexivity.
  - cbn [save_entries].
    destruct (e_tag a =? ACL_USER) eqn:Eu; [apply IH|].
    destruct (e_tag a =? ACL_GROUP) eqn:Eg; [apply IH|].
    unfold valid_tag, long_tag in Ha. rewrite Eu, Eg in Ha. simpl in Ha.
    rewrite orb_false_r in Ha. rewrite Ha. apply IH.
Qed.

Lemma kmalloc_length (n : Z) : length (fresh_block n) = Z.to_nat n.
Proof. unfold fresh_block. rewrite length_map, length_seq. reflexivity. Qed.

(** A tag of the closed set, written little-endian and read big-endian,
    is no tag of the closed set. *)
Lemma swapped_tag_invalid (t : Z) :
  valid_tag t = true ->
  valid_tag (to_short (be16_to_cpu (cpu_to_le16 t))) = false.
Proof.
  unfold valid_tag, short_tag, long_tag, ACL_USER_OBJ, ACL_GROUP_OBJ,
    ACL_MASK, ACL_OTHER, ACL_USER, ACL_GROUP.
  intros H.
  assert (Ht : t = 1 \/ t = 2 \/ t = 4 \/ t = 8 \/ t = 16 \/ t = 32) by lia.
  destruct Ht as [->|[->|[->|[->|[->| ->]]]]]; vm_compute; reflexivity.
Qed.

(** What [pram_acl_save] hands out for an ACL of one entry or more with
    tags of the closed set: a block that starts with the version and, behind
    it, the little-endian image of the first tag. *)
Lemma pram_acl_save_valid (a : posix_acl_entry) (rest : posix_acl) :
  Forall (fun e => valid_tag (e_tag e) = true) (a :: rest) ->
  kmalloc_ok (sizeof_pram_acl_header
              + a_count (a :: rest) * sizeof_pram_acl_entry) = true ->
  exists ext_acl,
    pram_acl_save (a :: rest)
    = (Obj ext_acl, pram_acl_size (a_count (a :: rest)))
    /\ field ext_acl 0 4 = cpu_to_be32 PRAM_ACL_VERSION
    /\ field ext_acl sizeof_pram_acl_header 2 = cpu_to_le16 (e_tag a).
Proof.
  intros Hv Hk. unfold pram_acl_save, kmalloc. rewrite Hk.
  set (n := a_count (a :: rest)).
  set (b0 := poke (fresh_block _) 0 (cpu_to_be32 PRAM_ACL_VERSION)).
  assert (Hn : n = Z.of_nat (length (a :: rest))) by reflexivity.
  assert (L0 : length b0 = Z.to_nat (sizeof_pram_acl_header + n * 8)).
  { unfold b0, sizeof_pram_acl_entry.
    change (length (a :: rest)) with (S (length rest)) in Hn.
    rewrite poke_length; rewrite kmalloc_length;
      change (length (cpu_to_be32 PRAM_ACL_VERSION)) with 4%nat;
      unfold sizeof_pram_acl_header; lia. }
  assert (F0 : field b0 0 4 = cpu_to_be32 PRAM_ACL_VERSION).
  { unfold b0, cpu_to_be32. apply poke_field_4; [lia|].
    change (Z.to_nat 0) with 0%nat. lia. }
  destruct (save_entries_valid _ Hv sizeof_pram_acl_header b0)
    as [ext_acl Hs].
  rewrite Hs. exists ext_acl. split; [reflexivity|].
  assert (Hb : (Z.to_nat sizeof_pram_acl_header + 8 * length (a :: rest)
                <= length b0)%nat)
    by (rewrite L0; unfold sizeof_pram_acl_header; lia).
  split.
  - rewrite <- F0.
    assert (H4 : 0 <= sizeof_pram_acl_header)
      by (unfold sizeof_pram_acl_header; lia).
    destruct (save_entries_agree _ _ _ _ H4 Hb Hs) as [Ha _].
    apply (field_agree _ _ (Z.to_nat sizeof_pram_acl_header)); auto;
      unfold sizeof_pram_acl_header; lia.
  - eapply save_entries_head_tag; [|exact Hb|exact Hs].
    unfold sizeof_pram_acl_header. lia.
Qed.

(** C1, on the code: for an ACL of one entry or more whose tags are all of
    the closed set, [pram_acl_save] writes the tags little-endian and
    [pram_acl_load] reads them big-endian, so decoding the encoded buffer
    never gives an ACL back: it gives [NULL] or [ERR_PTR(-EINVAL)], or
    [ERR_PTR(-ENOMEM)] when one of the two allocations fails. *)
Theorem load_of_save_never_acl (acl : posix_acl) :
  1 <= a_count acl ->
  Forall (fun e => valid_tag (e_tag e) = true) acl ->
  (load_of_save acl = NULL \/ load_of_save acl = ERR_PTR (- EINVAL)
   \/ load_of_save acl = ERR_PTR (- ENOMEM))
  /\ (kmalloc_ok (sizeof_pram_acl_header
                  + a_count acl * sizeof_pram_acl_entry) = true ->
      posix_acl_alloc_ok (pram_acl_count (pram_acl_size (a_count acl)))
      = true ->
      load_of_save acl = NULL \/ load_of_save acl = ERR_PTR (- EINVAL))
  /\ forall acl', load_of_save acl <> Obj acl'.
Proof.
  intros Hc Hv.
  assert (E : load_of_save acl = NULL
              \/ load_of_save acl = ERR_PTR (- EINVAL)
              \/ (load_of_save acl = ERR_PTR (- ENOMEM)
                  /\ (kmalloc_ok (sizeof_pram_acl_header
                                  + a_count acl * sizeof_pram_acl_entry)
                      = false
                      \/ posix_acl_alloc_ok
                           (pram_acl_count (pram_acl_size (a_count acl)))
                         = false))).
  { destruct acl as [|a rest]; [unfold a_count in Hc; simpl in Hc; lia|].
    destruct (kmalloc_ok (sizeof_pram_acl_header
                          + a_count (a :: rest) * sizeof_pram_acl_entry))
      eqn:Hk.
    2:{ right. right. split; [|left; reflexivity].
        unfold load_of_save, pram_acl_save, kmalloc. rewrite Hk.
        reflexivity. }
    destruct (pram_acl_save_valid a rest Hv Hk) as (ext & Hs & Fv & Ft).
    unfold load_of_save. rewrite Hs.
    unfold pram_acl_load, posix_acl_alloc.
    destruct (_ <? sizeof_pram_acl_header); [right; left; reflexivity|].
    destruct (negb _); [right; left; reflexivity|].
    set (count := pram_acl_count (pram_acl_size (a_count (a :: rest)))).
    destruct (Z.ltb_spec count 0) as [|Hge]; [right; left; reflexivity|].
    destruct (Z.eqb_spec count 0) as [|Hne]; [left; reflexivity|].
    right.
    destruct (posix_acl_alloc_ok count);
      [left|right; split; [reflexivity|right; reflexivity]].
    destruct (Z.to_nat count) as [|fuel] eqn:Ef; [lia|].
    destruct (load_entries _ _ (S fuel) _ _) as [[l v]|] eqn:El;
      [|reflexivity].
    exfalso. apply load_entries_step in El. destruct El as [Ht _].
    unfold record_tag in Ht. rewrite Ft in Ht.
    inversion Hv as [|? ? Ha _]; subst.
    rewrite (swapped_tag_invalid _ Ha) in Ht. discriminate. }
  split; [|split].
  - destruct E as [E|[E|[E _]]]; auto.
  - intros Hk Ha. destruct E as [E|[E|[_ [E|E]]]]; auto; congruence.
  - intros acl'. destruct E as [-> |[-> |[-> _]]]; discriminate.
Qed.

End CodecProps.

(** ** The store adapter and the attribute handler *)

Section StoreProps.
Context {L : AclLayout} {M : Memory} {X : Xattr} {K : Kernel}.

Lemma get_cached_acl_set_cached_acl (ino : inode) (type : Z)
    (acl : ptr posix_acl) :
  type = ACL_TYPE_ACCESS \/ type = ACL_TYPE_DEFAULT ->
  get_cached_acl (set_cached_acl ino type acl) type = Some acl.
Proof. intros [-> | ->]; reflexivity. Qed.

(** A get that finds the slot filled answers from the cache and leaves the
    inode, its history included, as it was. *)
Lemma pram_get_acl_cached (ino : inode) (type : Z) (acl : ptr posix_acl) :
  test_opt_POSIX_ACL (i_sb ino) = true ->
  get_cached_acl ino type = Some acl ->
  is_not_cached acl = false ->
  pram_get_acl ino type = Some (acl, ino).
Proof.
  intros Ho Hc Hn. unfold pram_get_acl. rewrite Ho, Hc, Hn. reflexivity.
Qed.

(** C6: with ACL support on, on an inode that is neither a symbolic link
    nor a directory, setting a default ACL fails with [-EACCES] and setting
    no default ACL succeeds; the inode is untouched either way. *)
Theorem pram_set_acl_default_non_directory (ino : inode)
    (acl : option posix_acl) :
  S_ISLNK (i_mode ino) = false ->
  S_ISDIR (i_mode ino) = false ->
  test_opt_POSIX_ACL (i_sb ino) = true ->
  pram_set_acl ino ACL_TYPE_DEFAULT acl
  = (match acl with Some _ => - EACCES | None => 0 end, ino).
Proof.
  intros Hl Hd Ho. unfold pram_set_acl. rewrite Hl, Hd, Ho. reflexivity.
Qed.

(** C7: on a symbolic link every set fails with [-EOPNOTSUPP], whatever
    the type and the ACL, and the inode (mode, stored attributes, cache,
    history) is untouched. *)
Theorem pram_set_acl_symlink (ino : inode) (type : Z)
    (acl : option posix_acl) :
  S_ISLNK (i_mode ino) = true ->
  pram_set_acl ino type acl = (- EOPNOTSUPP, ino).
Proof.
  intros Hl. unfold pram_set_acl. rewrite Hl. reflexivity.
Qed.

(** C8, as the code has it: with ACL support off, a set on an inode that
    is not a symbolic link returns 0 and touches nothing; on a symbolic
    link the type check comes first and the set fails with
    [-EOPNOTSUPP]. *)
Theorem pram_set_acl_disabled (ino : inode) (type : Z)
    (acl : option posix_acl) :
  test_opt_POSIX_ACL (i_sb ino) = false ->
  pram_set_acl ino type acl
  = (if S_ISLNK (i_mode ino) then - EOPNOTSUPP else 0, ino).
Proof.
  intros Ho. unfold pram_set_acl. rewrite Ho.
  destruct (S_ISLNK (i_mode ino)); reflexivity.
Qed.

(** C9: with ACL support on and nothing cached for the type, when the
    attribute store answers the size query with [-ENODATA], the get
    returns [NULL] after that one call to the store and leaves [NULL] in
    the cache slot; the next get returns [NULL] again and leaves the inode
    and its history as they are: the store is not called. *)
Theorem pram_get_acl_not_found (ino : inode) (type name_index : Z) :
  test_opt_POSIX_ACL (i_sb ino) = true ->
  (type = ACL_TYPE_ACCESS
   /\ name_index = PRAM_XATTR_INDEX_POSIX_ACL_ACCESS)
  \/ (type = ACL_TYPE_DEFAULT
      /\ name_index = PRAM_XATTR_INDEX_POSIX_ACL_DEFAULT) ->
  get_cached_acl ino type = Some ACL_NOT_CACHED ->
  fst (pram_xattr_get (i_xattr ino) name_index String.EmptyString None 0)
  = - ENODATA ->
  exists ino',
    pram_get_acl ino type = Some (NULL, ino')
    /\ get_cached_acl ino' type = Some NULL
    /\ i_trace ino' = i_trace ino ++ [EvXattrGet name_index 0]
    /\ i_xattr ino' = i_xattr ino
    /\ pram_get_acl ino' type = Some (NULL, ino').
Proof.
  intros Ho Ht Hc Hg.
  set (ino' := set_cached_acl (record ino (EvXattrGet name_index 0)) type
                 NULL).
  assert (Hty : type = ACL_TYPE_ACCESS \/ type = ACL_TYPE_DEFAULT)
    by (destruct Ht as [[? _]|[? _]]; auto).
  assert (E : pram_get_acl ino type = Some (NULL, ino')).
  { unfold pram_get_acl. rewrite Ho, Hc. cbn [negb is_not_cached ACL_NOT_CACHED].
    change (-1 =? -1) with true. cbn [negb].
    destruct Ht as [[-> ->]|[-> ->]];
      cbn [Z.eqb ACL_TYPE_ACCESS ACL_TYPE_DEFAULT Pos.eqb];
      rewrite Hg; reflexivity. }
  exists ino'. split; [exact E|].
  assert (Hc' : get_cached_acl ino' type = Some NULL)
    by (apply get_cached_acl_set_cached_acl; exact Hty).
  split; [exact Hc'|].
  assert (Ho' : test_opt_POSIX_ACL (i_sb ino') = true)
    by (destruct Hty as [-> | ->]; exact Ho).
  repeat split.
  - destruct Hty as [-> | ->]; reflexivity.
  - destruct Hty as [-> | ->]; reflexivity.
  - apply pram_get_acl_cached; auto.
Qed.




(** C10, as the code has it: with ACL support off, the set handler fails
    with [-EOPNOTSUPP] for the empty attribute name and with [-EINVAL] for
    any other name, whatever the ownership check would say; it never fails
    with [-EPERM], and the inode is untouched. *)
Theorem pram_xattr_set_acl_disabled (de : dentry) (name : String.string)
    (value : option (list byte)) (size flags type : Z) :
  test_opt_POSIX_ACL (i_sb (d_inode de)) = false ->
  pram_xattr_set_acl de name value size flags type
  = (if String.eqb name String.EmptyString then - EOPNOTSUPP else - EINVAL,
     d_inode de)
  /\ fst (pram_xattr_set_acl de name value size flags type) <> - EPERM.
Proof.
  intros Ho. unfold pram_xattr_set_acl. rewrite Ho.
  destruct (String.eqb name String.EmptyString); cbn [negb fst];
    split; try reflexivity; discriminate.
Qed.

End StoreProps.

(* ================================================================== *)
(** * Further properties of the operations *)

(** ** The codec *)

Section CodecMore.
Context {L : AclLayout} {M : Memory}.

Lemma save_entries_invalid (entries : list posix_acl_entry) :
  Exists (fun e => valid_tag (e_tag e) = false) entries ->
  forall e buf, save_entries entries e buf = None.
Proof.
  induction 1 as [a rest Ha|a rest _ IH]; intros e buf; cbn [save_entries].
  - unfold valid_tag, long_tag in Ha.
    apply orb_false_elim in Ha. destruct Ha as [Hs Hl].
    apply orb_false_elim in Hl. destruct Hl as [Hu Hg].
    rewrite Hu, Hg, Hs. reflexivity.
  - destruct (e_tag a =? ACL_USER); [apply IH|].
    destruct (e_tag a =? ACL_GROUP); [apply IH|].
    destruct (short_tag (e_tag a)); [apply IH|reflexivity].
Qed.

(** X1: an ACL with an entry whose tag is outside the closed set is never
    encoded: [pram_acl_save] answers with [ERR_PTR(-EINVAL)] once the
    block is allocated, and with [ERR_PTR(-ENOMEM)] when that allocation,
    which comes first, fails. *)
Theorem pram_acl_save_invalid_tag (acl : posix_acl) :
  Exists (fun e => valid_tag (e_tag e) = false) acl ->
  pram_acl_save acl
  = (if kmalloc_ok (sizeof_pram_acl_header
                    + a_count acl * sizeof_pram_acl_entry)
     then ERR_PTR (- EINVAL) else ERR_PTR (- ENOMEM),
     pram_acl_size (a_count acl)).
Proof.
  intros H. unfold pram_acl_save, kmalloc.
  destruct (kmalloc_ok _); [|reflexivity].
  rewrite (save_entries_invalid _ H). reflexivity.
Qed.

(** X2: an ACL whose tags are all of the closed set is encoded, whatever
    its length (0 included), if the block can be allocated, and answered
    with [ERR_PTR(-ENOMEM)] if not; the block handed out is the allocated
    one, header plus [a_count] long records, so no write went past its
    end, and it starts with the big-endian version. *)
Theorem pram_acl_save_block (acl : posix_acl) :
  Forall (fun e => valid_tag (e_tag e) = true) acl ->
  (kmalloc_ok (sizeof_pram_acl_header
               + a_count acl * sizeof_pram_acl_entry) = false ->
   pram_acl_save acl = (ERR_PTR (- ENOMEM), pram_acl_size (a_count acl)))
  /\ (kmalloc_ok (sizeof_pram_acl_header
                  + a_count acl * sizeof_pram_acl_entry) = true ->
      exists ext_acl,
        pram_acl_save acl = (Obj ext_acl, pram_acl_size (a_count acl))
        /\ Z.of_nat (length ext_acl)
           = sizeof_pram_acl_header + a_count acl * sizeof_pram_acl_entry
        /\ field ext_acl 0 4 = cpu_to_be32 PRAM_ACL_VERSION).
Proof.
  intros Hv. split; intros Hk; unfold pram_acl_save, kmalloc; rewrite Hk;
    [reflexivity|].
  set (b0 := poke (fresh_block _) 0 (cpu_to_be32 PRAM_ACL_VERSION)).
  assert (L0 : length b0
               = Z.to_nat (sizeof_pram_acl_header
                           + a_count acl * sizeof_pram_acl_entry)).
  { unfold b0. rewrite poke_length; rewrite kmalloc_length;
      change (length (cpu_to_be32 PRAM_ACL_VERSION)) with 4%nat;
      unfold sizeof_pram_acl_header, sizeof_pram_acl_entry, a_count; lia. }
  assert (F0 : field b0 0 4 = cpu_to_be32 PRAM_ACL_VERSION).
  { unfold b0, cpu_to_be32. apply poke_field_4; [lia|].
    rewrite kmalloc_length.
    unfold sizeof_pram_acl_header, sizeof_pram_acl_entry, a_count. lia. }
  destruct (save_entries_valid _ Hv sizeof_pram_acl_header b0)
    as [ext_acl Hs].
  rewrite Hs. exists ext_acl. split; [reflexivity|].
  assert (H4 : 0 <= sizeof_pram_acl_header)
    by (unfold sizeof_pram_acl_header; lia).
  assert (Hb : (Z.to_nat sizeof_pram_acl_header + 8 * length acl
                <= length b0)%nat).
  { rewrite L0.
    unfold sizeof_pram_acl_header, sizeof_pram_acl_entry, a_count. lia. }
  destruct (save_entries_agree _ _ _ _ H4 Hb Hs) as [Ha Hl].
  split.
  - rewrite Hl, L0.
    unfold sizeof_pram_acl_header, sizeof_pram_acl_entry, a_count. lia.
  - rewrite <- F0.
    apply (field_agree _ _ (Z.to_nat sizeof_pram_acl_header)); auto;
      unfold sizeof_pram_acl_header; lia.
Qed.

Lemma record_size_pos (t : Z) : 4 <= record_size t <= 8.
Proof.
  unfold record_size, sizeof_pram_acl_entry, sizeof_pram_acl_entry_short.
  destruct (long_tag t); lia.
Qed.

Lemma record_offset_mono (buf : list byte) (k : nat) :
  forall off off', record_offset buf k off = Some off' -> off <= off'.
Proof.
  induction k as [|k IH]; intros off off' H; cbn [record_offset] in H.
  - inversion H. lia.
  - destruct (valid_tag (record_tag buf off)); [|discriminate].
    apply IH in H. pose proof (record_size_pos (record_tag buf off)). lia.
Qed.

(** One iteration of the loop on a record with a tag of the closed set
    that ends inside the buffer. *)
Lemma load_entries_unfold (buf : list byte) (end_ : Z) (fuel n : nat)
    (value : Z) :
  valid_tag (record_tag buf value) = true ->
  value + record_size (record_tag buf value) <= end_ ->
  exists e,
    e_tag e = record_tag buf value
    /\ e_perm e = be16_to_cpu (field buf (value + offsetof_e_perm) 2)
    /\ (e_tag e = ACL_USER ->
        e_id e
        = make_kuid (be32_to_cpu (field buf (value + offsetof_e_id) 4)))
    /\ (e_tag e = ACL_GROUP ->
        e_id e
        = make_kgid (be32_to_cpu (field buf (value + offsetof_e_id) 4)))
    /\ load_entries buf end_ (S fuel) n value
       = match load_entries buf end_ fuel (S n)
                 (value + record_size (record_tag buf value)) with
         | Some (rest, value') => Some (e :: rest, value')
         | None => None
         end.
Proof.
  intros Ht Hb. cbn [load_entries].
  pose proof (record_size_pos (record_tag buf value)) as Hp.
  revert Ht Hb.
  unfold record_tag, record_size, valid_tag, long_tag, offsetof_e_tag.
  rewrite Z.add_0_r.
  set (t := to_short (be16_to_cpu (field buf value 2))).
  intros Ht Hb.
  destruct (Z.gtb_spec (value + sizeof_pram_acl_entry_short) end_) as [Hs|Hs].
  { unfold record_size, record_tag in Hp. fold t in Hp.
    unfold sizeof_pram_acl_entry_short in Hs.
    destruct ((t =? ACL_USER) || (t =? ACL_GROUP));
      unfold sizeof_pram_acl_entry, sizeof_pram_acl_entry_short in Hb; lia. }
  destruct (short_tag t) eqn:Es.
  - assert (Hl : (t =? ACL_USER) || (t =? ACL_GROUP) = false).
    { unfold short_tag in Es. unfold ACL_USER_OBJ, ACL_GROUP_OBJ, ACL_MASK,
        ACL_OTHER, ACL_USER, ACL_GROUP in *. lia. }
    rewrite Hl in *.
    eexists (mk_entry t _ _). cbn [e_tag e_perm e_id].
    split; [reflexivity|]. split; [reflexivity|].
    split; [intros E; rewrite E in Hl; discriminate|].
    split; [intros E; rewrite E in Hl; discriminate|]. reflexivity.
  - cbn [orb] in Ht.
    destruct (Z.eqb_spec t ACL_USER) as [Eu|Eu].
    + cbn [orb] in Hb |- *.
      destruct (Z.gtb_spec (value + sizeof_pram_acl_entry) end_); [lia|].
      eexists (mk_entry t _ _). cbn [e_tag e_perm e_id].
      split; [reflexivity|]. split; [reflexivity|].
      split; [reflexivity|].
      split; [intros E; rewrite E in Eu; discriminate|]. reflexivity.
    + cbn [orb] in Ht, Hb |- *. rewrite Ht in *.
      destruct (Z.gtb_spec (value + sizeof_pram_acl_entry) end_); [lia|].
      eexists (mk_entry t _ _). cbn [e_tag e_perm e_id].
      split; [reflexivity|]. split; [reflexivity|].
      split; [intros E; contradiction|].
      split; [reflexivity|]. reflexivity.
Qed.

(** Records with tags of the closed set that end inside the buffer are all
    read. *)
Lemma load_entries_complete (buf : list byte) (end_ : Z) (fuel : nat) :
  forall n value value',
    record_offset buf fuel value = Some value' -> value' <= end_ ->
    exists acl, load_entries buf end_ fuel n value = Some (acl, value').
Proof.
  induction fuel as [|fuel IH]; intros n value value' Ho Hle.
  - cbn [record_offset] in Ho. inversion Ho; subst.
    exists []. reflexivity.
  - cbn [record_offset] in Ho.
    destruct (valid_tag (record_tag buf value)) eqn:Ht; [|discriminate].
    pose proof (record_offset_mono _ _ _ _ Ho) as Hm.
    destruct (load_entries_unfold buf end_ fuel n value Ht ltac:(lia))
      as (e & _ & _ & _ & _ & Hu).
    destruct (IH (S n) _ _ Ho Hle) as [rest Hr].
    rewrite Hu, Hr. eexists. reflexivity.
Qed.

(** X3: [pram_acl_load] returns an ACL exactly for a buffer with a valid
    header whose size stands for one record or more, for which the ACL
    can be allocated, and whose records, as many as the size stands for
    and each with a tag of the closed set, end at the end of the buffer. *)
Theorem pram_acl_load_success_iff (buf : list byte) (size : Z) :
  (exists acl, pram_acl_load (Some buf) size = Obj acl)
  <-> valid_header buf size
      /\ 0 < pram_acl_count size
      /\ posix_acl_alloc_ok (pram_acl_count size) = true
      /\ record_offset buf (Z.to_nat (pram_acl_count size))
           sizeof_pram_acl_header = Some size.
Proof.
  split.
  - intros [acl H].
    assert (Hh : valid_header buf size).
    { unfold pram_acl_load in H. unfold valid_header.
      destruct (Z.ltb_spec size sizeof_pram_acl_header); [discriminate|].
      destruct (bytes_eqb _ _) eqn:Ev; [|discriminate].
      apply version_check_iff in Ev. split; [lia|exact Ev]. }
    split; [exact Hh|].
    rewrite (pram_acl_load_valid_header _ _ Hh) in H. cbv zeta in H.
    destruct (Z.ltb_spec (pram_acl_count size) 0); [discriminate|].
    destruct (Z.eqb_spec (pram_acl_count size) 0); [discriminate|].
    split; [lia|].
    destruct (posix_acl_alloc_ok (pram_acl_count size)); cbn [negb] in H;
      [|discriminate].
    split; [reflexivity|].
    destruct (load_entries _ _ _ _ _) as [[a v]|] eqn:El; [|discriminate].
    destruct (Z.eqb_spec v size); [|discriminate]. subst v.
    apply load_entries_sound in El. apply El.
  - intros (Hh & Hc & Ha & Ho).
    rewrite (pram_acl_load_valid_header _ _ Hh). cbv zeta.
    destruct (Z.ltb_spec (pram_acl_count size) 0); [lia|].
    destruct (Z.eqb_spec (pram_acl_count size) 0); [lia|].
    rewrite Ha. cbn [negb].
    destruct (load_entries_complete buf size _ 0%nat _ _ Ho ltac:(lia))
      as [acl Hl].
    rewrite Hl, Z.eqb_refl. exists acl. reflexivity.
Qed.

Lemma load_entries_nth (buf : list byte) (end_ : Z) (fuel : nat) :
  forall n value acl value',
    load_entries buf end_ fuel n value = Some (acl, value') ->
    forall k off,
      (k < fuel)%nat -> record_offset buf k value = Some off ->
      exists e,
        nth_error acl k = Some e
        /\ e_tag e = record_tag buf off
        /\ valid_tag (e_tag e) = true
        /\ e_perm e = be16_to_cpu (field buf (off + offsetof_e_perm) 2)
        /\ (e_tag e = ACL_USER ->
            e_id e
            = make_kuid (be32_to_cpu (field buf (off + offsetof_e_id) 4)))
        /\ (e_tag e = ACL_GROUP ->
            e_id e
            = make_kgid (be32_to_cpu (field buf (off + offsetof_e_id) 4))).
Proof.
  induction fuel as [|fuel IH]; intros n value acl value' H k off Hk Ho;
    [lia|].
  pose proof (load_entries_step _ _ _ _ _ _ _ H) as (Ht & Hb & _).
  destruct (load_entries_unfold buf end_ fuel n value Ht Hb)
    as (e & Et & Ep & Eu & Eg & Hu).
  rewrite Hu in H.
  destruct (load_entries buf end_ fuel (S n) _) as [[rest v]|] eqn:El;
    [|discriminate].
  inversion H; subst acl v.
  destruct k as [|k].
  - cbn [record_offset] in Ho. inversion Ho; subst off.
    exists e. cbn [nth_error].
    repeat split; auto. rewrite Et. exact Ht.
  - cbn [record_offset] in Ho. rewrite Ht in Ho.
    cbn [nth_error]. apply (IH _ _ _ _ El k off); [lia|exact Ho].
Qed.

(** X4: what a decoded ACL holds: the entry of index [k] carries the tag
    and the permission bits of the [k]-th record, both read big-endian; the
    tag is of the closed set; a named-user or named-group entry carries the
    identifier of its record, read big-endian and mapped by [make_kuid] or
    [make_kgid]. *)
Theorem pram_acl_load_entries (value : option (list byte)) (size : Z)
    (acl : posix_acl) :
  pram_acl_load value size = Obj acl ->
  exists buf,
    value = Some buf
    /\ forall k off,
         Z.of_nat k < pram_acl_count size ->
         record_offset buf k sizeof_pram_acl_header = Some off ->
         exists e,
           nth_error acl k = Some e
           /\ e_tag e = record_tag buf off
           /\ valid_tag (e_tag e) = true
           /\ e_perm e = be16_to_cpu (field buf (off + offsetof_e_perm) 2)
           /\ (e_tag e = ACL_USER ->
               e_id e
               = make_kuid
                   (be32_to_cpu (field buf (off + offsetof_e_id) 4)))
           /\ (e_tag e = ACL_GROUP ->
               e_id e
               = make_kgid
                   (be32_to_cpu (field buf (off + offsetof_e_id) 4))).
Proof.
  destruct value as [buf|]; [|discriminate].
  intros H. exists buf. split; [reflexivity|].
  unfold pram_acl_load in H.
  destruct (size <? sizeof_pram_acl_header); [discriminate|].
  destruct (negb _); [discriminate|].
  destruct (Z.ltb_spec (pram_acl_count size) 0); [discriminate|].
  destruct (Z.eqb_spec (pram_acl_count size) 0); [discriminate|].
  destruct (posix_acl_alloc _); [|discriminate].
  destruct (load_entries _ _ _ _ _) as [[a v]|] eqn:El; [|discriminate].
  destruct (negb _); [discriminate|].
  inversion H; subst a.
  intros k off Hk Ho.
  apply (load_entries_nth _ _ _ _ _ _ _ El k off); [lia|exact Ho].
Qed.

Lemma load_entries_agree (buf buf' : list byte) (end_ : Z) (fuel : nat) :
  agree_below (Z.to_nat end_) buf buf' ->
  forall n value,
    0 <= value ->
    load_entries buf end_ fuel n value = load_entries buf' end_ fuel n value.
Proof.
  intros Ha. induction fuel as [|fuel IH]; intros n value H0;
    [reflexivity|].
  cbn [load_entries].
  unfold offsetof_e_tag, offsetof_e_perm, offsetof_e_id,
    sizeof_pram_acl_entry_short, sizeof_pram_acl_entry.
  destruct (Z.gtb_spec (value + 4) end_) as [|Hs]; [reflexivity|].
  rewrite (field_agree buf buf' (Z.to_nat end_) 2 (value + 0)) by
    (auto; lia).
  rewrite (field_agree buf buf' (Z.to_nat end_) 2 (value + 2)) by
    (auto; lia).
  destruct (short_tag _); [rewrite IH by lia; reflexivity|].
  destruct (_ =? ACL_USER).
  - destruct (Z.gtb_spec (value + 8) end_) as [|Hl]; [reflexivity|].
    rewrite (field_agree buf buf' (Z.to_nat end_) 4 (value + 4)) by
      (auto; lia).
    rewrite IH by lia. reflexivity.
  - destruct (_ =? ACL_GROUP); [|reflexivity].
    destruct (Z.gtb_spec (value + 8) end_) as [|Hl]; [reflexivity|].
    rewrite (field_agree buf buf' (Z.to_nat end_) 4 (value + 4)) by
      (auto; lia).
    rewrite IH by lia. reflexivity.
Qed.

(** X5: [pram_acl_load] reads no byte at or behind [value + size]: two
    buffers with the same first [size] bytes are decoded alike. *)
Theorem pram_acl_load_reads_below_size (buf buf' : list byte) (size : Z) :
  agree_below (Z.to_nat size) buf buf' ->
  pram_acl_load (Some buf) size = pram_acl_load (Some buf') size.
Proof.
  intros Ha. unfold pram_acl_load.
  destruct (Z.ltb_spec size sizeof_pram_acl_header) as [|Hs];
    [reflexivity|].
  unfold sizeof_pram_acl_header in Hs.
  rewrite (field_agree buf buf' (Z.to_nat size) 4 0) by (auto; lia).
  destruct (negb _); [reflexivity|].
  destruct (_ <? 0); [reflexivity|].
  destruct (_ =? 0); [reflexivity|].
  destruct (posix_acl_alloc _); [|reflexivity].
  rewrite (load_entries_agree buf buf' size _ Ha)
    by (unfold sizeof_pram_acl_header; lia).
  reflexivity.
Qed.

End CodecMore.

(** ** The store adapter *)

Section StoreMore.
Context {L : AclLayout} {M : Memory} {X : Xattr} {K : Kernel}.

Lemma set_cached_acl_frame (i : inode) (type : Z) (acl : ptr posix_acl) :
  i_mode (set_cached_acl i type acl) = i_mode i
  /\ i_ctime (set_cached_acl i type acl) = i_ctime i
  /\ i_dirty (set_cached_acl i type acl) = i_dirty i
  /\ i_sb (set_cached_acl i type acl) = i_sb i
  /\ i_xattr (set_cached_acl i type acl) = i_xattr i
  /\ i_trace (set_cached_acl i type acl) = i_trace i.
Proof.
  unfold set_cached_acl.
  destruct (type =? ACL_TYPE_ACCESS); [cbn; auto 10|].
  destruct (type =? ACL_TYPE_DEFAULT); cbn; auto 10.
Qed.

Lemma IS_ERR_false_cached (p : ptr posix_acl) :
  IS_ERR p = false -> is_not_cached p = false.
Proof.
  destruct p as [| |v]; try reflexivity. cbn [IS_ERR is_not_cached].
  unfold MAX_ERRNO. intros H. lia.
Qed.

(** The path of [pram_get_acl] behind a cache miss. *)
Lemma pram_get_acl_miss (ino : inode) (type name_index : Z) :
  test_opt_POSIX_ACL (i_sb ino) = true ->
  (type = ACL_TYPE_ACCESS
   /\ name_index = PRAM_XATTR_INDEX_POSIX_ACL_ACCESS)
  \/ (type = ACL_TYPE_DEFAULT
      /\ name_index = PRAM_XATTR_INDEX_POSIX_ACL_DEFAULT) ->
  get_cached_acl ino type = Some ACL_NOT_CACHED ->
  pram_get_acl ino type
  = let retval :=
      fst (pram_xattr_get (i_xattr ino) name_index String.EmptyString
             None 0) in
    let ino1 := record ino (EvXattrGet name_index 0) in
    if retval >? 0 then
      if kmalloc_ok retval then
        let second :=
          pram_xattr_get (i_xattr ino) name_index String.EmptyString
            (Some (fresh_block retval)) retval in
        Some (pram_get_acl_finish
                (record ino1 (EvXattrGet name_index retval)) type
                (fst second) (Some (snd second)))
      else Some (ERR_PTR (- ENOMEM), ino1)
    else Some (pram_get_acl_finish ino1 type retval None).
Proof.
  intros Ho Ht Hc.
  unfold pram_get_acl, kmalloc. rewrite Ho, Hc.
  cbn [negb is_not_cached ACL_NOT_CACHED].
  change (-1 =? -1) with true. cbn [negb].
  destruct Ht as [[-> ->]|[-> ->]];
    cbn [Z.eqb ACL_TYPE_ACCESS ACL_TYPE_DEFAULT Pos.eqb]; cbv zeta;
    (destruct (fst _ >? 0); [|reflexivity]);
    (destruct (kmalloc_ok _); [|reflexivity]);
    change (i_xattr (record ino _)) with (i_xattr ino);
    match goal with
    | |- context [pram_xattr_get ?s ?i ?n (Some ?b) ?z] =>
        destruct (pram_xattr_get s i n (Some b) z) as [m bytes]
    end;
    reflexivity.
Qed.

(** What the store says when it has no value to give: an error number, or
    0 bytes. *)
Lemma pram_get_acl_finish_no_value (ino : inode) (type e : Z)
    (value : option (list byte)) :
  - MAX_ERRNO <= e <= 0 ->
  pram_get_acl_finish ino type e value
  = if (e =? 0) || (e =? - ENODATA) || (e =? - ENOSYS)
    then (NULL, set_cached_acl ino type NULL)
    else (Raw e, ino).
Proof.
  intros He. unfold pram_get_acl_finish.
  destruct (Z.gtb_spec e 0); [lia|].
  destruct (Z.eqb_spec e 0) as [->|E0]; [reflexivity|].
  cbn [orb].
  destruct ((e =? - ENODATA) || (e =? - ENOSYS)); [reflexivity|].
  unfold ERR_PTR. destruct (Z.eqb_spec e 0); [contradiction|].
  cbn [IS_ERR].
  assert (Hi : (- MAX_ERRNO <=? e) && (e <? 0) = true) by lia.
  rewrite Hi. reflexivity.
Qed.

(** X6: on a cache miss, an error of the miss path (an error number other
    than [ENODATA] and [ENOSYS] from the size query or from the read into
    the buffer, or [-ENOMEM] when that buffer cannot be allocated) is
    handed to the caller as it is and is not cached: the slot still says
    "not cached", so the next get asks the store again. *)
Theorem pram_get_acl_store_error (ino : inode) (type name_index e : Z)
    (calls : list event) :
  test_opt_POSIX_ACL (i_sb ino) = true ->
  (type = ACL_TYPE_ACCESS
   /\ name_index = PRAM_XATTR_INDEX_POSIX_ACL_ACCESS)
  \/ (type = ACL_TYPE_DEFAULT
      /\ name_index = PRAM_XATTR_INDEX_POSIX_ACL_DEFAULT) ->
  get_cached_acl ino type = Some ACL_NOT_CACHED ->
  - MAX_ERRNO <= e < 0 -> e <> - ENODATA -> e <> - ENOSYS ->
  (fst (pram_xattr_get (i_xattr ino) name_index String.EmptyString None 0)
   = e
   /\ calls = [EvXattrGet name_index 0])
  \/ (exists n,
        fst (pram_xattr_get (i_xattr ino) name_index String.EmptyString
               None 0) = n
        /\ 0 < n
        /\ ((kmalloc_ok n = false /\ e = - ENOMEM
             /\ calls = [EvXattrGet name_index 0])
            \/ (kmalloc_ok n = true
                /\ fst (pram_xattr_get (i_xattr ino) name_index
                          String.EmptyString (Some (fresh_block n)) n) = e
                /\ calls = [EvXattrGet name_index 0;
                            EvXattrGet name_index n]))) ->
  exists ino',
    pram_get_acl ino type = Some (ERR_PTR e, ino')
    /\ IS_ERR (@ERR_PTR posix_acl e) = true
    /\ PTR_ERR (@ERR_PTR posix_acl e) = e
    /\ get_cached_acl ino' type = Some ACL_NOT_CACHED
    /\ i_trace ino' = i_trace ino ++ calls.
Proof.
  intros Ho Ht Hc He Hn1 Hn2 Hcase.
  rewrite (pram_get_acl_miss ino type name_index Ho Ht Hc). cbv zeta.
  assert (Hp : @ERR_PTR posix_acl e = Raw e).
  { unfold ERR_PTR. destruct (Z.eqb_spec e 0); [lia|reflexivity]. }
  assert (Hi : IS_ERR (@ERR_PTR posix_acl e) = true).
  { rewrite Hp. cbn [IS_ERR]. lia. }
  assert (Hab : (e =? 0) || (e =? - ENODATA) || (e =? - ENOSYS) = false)
    by lia.
  assert (Hkeep : forall i : inode,
            get_cached_acl i type = get_cached_acl i type) by reflexivity.
  assert (Hslot : forall ev, get_cached_acl (record ino ev) type
                             = Some ACL_NOT_CACHED).
  { intros ev. destruct Ht as [[-> _]|[-> _]]; exact Hc. }
  assert (Hslot2 : forall ev ev',
            get_cached_acl (record (record ino ev) ev') type
            = Some ACL_NOT_CACHED).
  { intros ev ev'. destruct Ht as [[-> _]|[-> _]]; exact Hc. }
  destruct Hcase as [[Hg ->]|(n & Hg & Hpos & [(Hk & -> & ->)|(Hk & Hs & ->)])];
    rewrite Hg.
  - destruct (Z.gtb_spec e 0); [lia|].
    rewrite (pram_get_acl_finish_no_value _ _ e None) by lia.
    rewrite Hab, Hp. eexists. split; [reflexivity|].
    split; [rewrite <- Hp; exact Hi|]. split; [reflexivity|].
    split; [apply Hslot|reflexivity].
  - destruct (Z.gtb_spec n 0); [|lia]. rewrite Hk.
    eexists. split; [reflexivity|]. split; [reflexivity|].
    split; [reflexivity|]. split; [apply Hslot|reflexivity].
  - destruct (Z.gtb_spec n 0); [|lia]. rewrite Hk, Hs.
    rewrite (pram_get_acl_finish_no_value _ _ e) by lia.
    rewrite Hab, Hp. eexists. split; [reflexivity|].
    split; [rewrite <- Hp; exact Hi|]. split; [reflexivity|].
    split; [apply Hslot2|]. cbn. rewrite <- app_assoc. reflexivity.
Qed.

(** X7: an attribute store that answers the size query with [-ENOSYS] or
    with 0 (a value of no bytes) is treated like one without the attribute:
    the get returns [NULL] and caches it. *)
Theorem pram_get_acl_nothing_stored (ino : inode) (type name_index : Z) :
  test_opt_POSIX_ACL (i_sb ino) = true ->
  (type = ACL_TYPE_ACCESS
   /\ name_index = PRAM_XATTR_INDEX_POSIX_ACL_ACCESS)
  \/ (type = ACL_TYPE_DEFAULT
      /\ name_index = PRAM_XATTR_INDEX_POSIX_ACL_DEFAULT) ->
  get_cached_acl ino type = Some ACL_NOT_CACHED ->
  fst (pram_xattr_get (i_xattr ino) name_index String.EmptyString None 0)
  = - ENOSYS
  \/ fst (pram_xattr_get (i_xattr ino) name_index String.EmptyString None 0)
     = 0 ->
  exists ino',
    pram_get_acl ino type = Some (NULL, ino')
    /\ get_cached_acl ino' type = Some NULL
    /\ i_trace ino' = i_trace ino ++ [EvXattrGet name_index 0].
Proof.
  intros Ho Ht Hc Hg.
  rewrite (pram_get_acl_miss ino type name_index Ho Ht Hc). cbv zeta.
  assert (Hty : type = ACL_TYPE_ACCESS \/ type = ACL_TYPE_DEFAULT)
    by (destruct Ht as [[? _]|[? _]]; auto).
  destruct Hg as [Hg|Hg]; rewrite Hg;
    cbn [Z.gtb Z.compare ENOSYS Z.opp];
    (rewrite pram_get_acl_finish_no_value
       by (unfold MAX_ERRNO, ENOSYS; lia));
    cbn [Z.eqb orb ENOSYS ENODATA Z.opp Pos.eqb];
    (eexists; split; [reflexivity|]); split;
    try (apply get_cached_acl_set_cached_acl; exact Hty);
    destruct Hty as [-> | ->]; reflexivity.
Qed.

(** X8: a stored value is read in two calls, a size query and a read into
    a buffer of that size (if the buffer can be allocated), and decoded by
    [pram_acl_load] with the size the second call returned; the outcome is
    cached unless it is an error (a malformed value is answered with
    [-EINVAL] at every get). *)
Theorem pram_get_acl_decodes (ino : inode) (type name_index n m : Z)
    (value : list byte) :
  test_opt_POSIX_ACL (i_sb ino) = true ->
  (type = ACL_TYPE_ACCESS
   /\ name_index = PRAM_XATTR_INDEX_POSIX_ACL_ACCESS)
  \/ (type = ACL_TYPE_DEFAULT
      /\ name_index = PRAM_XATTR_INDEX_POSIX_ACL_DEFAULT) ->
  get_cached_acl ino type = Some ACL_NOT_CACHED ->
  fst (pram_xattr_get (i_xattr ino) name_index String.EmptyString None 0)
  = n ->
  0 < n ->
  kmalloc_ok n = true ->
  pram_xattr_get (i_xattr ino) name_index String.EmptyString
    (Some (fresh_block n)) n = (m, value) ->
  0 < m ->
  exists ino',
    pram_get_acl ino type = Some (pram_acl_load (Some value) m, ino')
    /\ i_trace ino'
       = i_trace ino ++ [EvXattrGet name_index 0; EvXattrGet name_index n]
    /\ get_cached_acl ino' type
       = Some (if IS_ERR (pram_acl_load (Some value) m)
               then ACL_NOT_CACHED
               else pram_acl_load (Some value) m).
Proof.
  intros Ho Ht Hc Hg Hn Hk Hs Hm.
  rewrite (pram_get_acl_miss ino type name_index Ho Ht Hc). cbv zeta.
  rewrite Hg. destruct (Z.gtb_spec n 0); [|lia]. rewrite Hk, Hs.
  cbn [fst snd]. unfold pram_get_acl_finish.
  destruct (Z.gtb_spec m 0); [|lia].
  assert (Hty : type = ACL_TYPE_ACCESS \/ type = ACL_TYPE_DEFAULT)
    by (destruct Ht as [[? _]|[? _]]; auto).
  eexists. split; [reflexivity|].
  destruct (IS_ERR (pram_acl_load (Some value) m)); cbn [negb].
  - split; [cbn; rewrite <- app_assoc; reflexivity|].
    destruct Hty as [-> | ->]; exact Hc.
  - split.
    + destruct Hty as [-> | ->]; cbn; rewrite <- app_assoc; reflexivity.
    + apply get_cached_acl_set_cached_acl; exact Hty.
Qed.

Lemma pram_get_acl_finish_frame (i i' : inode) (type retval : Z)
    (value : option (list byte)) (p : ptr posix_acl) :
  pram_get_acl_finish i type retval value = (p, i') ->
  i_mode i' = i_mode i
  /\ i_ctime i' = i_ctime i
  /\ i_dirty i' = i_dirty i
  /\ i_sb i' = i_sb i
  /\ i_xattr i' = i_xattr i
  /\ (IS_ERR p = false -> i' = set_cached_acl i type p).
Proof.
  unfold pram_get_acl_finish.
  set (acl := if retval >? 0 then _ else _).
  destruct (IS_ERR acl) eqn:Ei; cbn [negb]; intros H; inversion H; subst.
  - repeat split; auto. intros E. rewrite Ei in E. discriminate.
  - destruct (set_cached_acl_frame i type acl)
      as (F1 & F2 & F3 & F4 & F5 & _).
    repeat split; auto.
Qed.

(** X9: [pram_get_acl] only reads: whatever it returns, the mode, the
    change time, the dirty flag, the super block and the stored attributes
    of the inode are as before. *)
Theorem pram_get_acl_frame (ino ino' : inode) (type : Z)
    (p : ptr posix_acl) :
  pram_get_acl ino type = Some (p, ino') ->
  i_mode ino' = i_mode ino
  /\ i_ctime ino' = i_ctime ino
  /\ i_dirty ino' = i_dirty ino
  /\ i_sb ino' = i_sb ino
  /\ i_xattr ino' = i_xattr ino.
Proof.
  unfold pram_get_acl.
  destruct (negb (test_opt_POSIX_ACL (i_sb ino)));
    [intros H; inversion H; subst; auto|].
  destruct (get_cached_acl ino type) as [c|]; [|discriminate].
  destruct (negb (is_not_cached c));
    [intros H; inversion H; subst; auto|].
  destruct (if type =? ACL_TYPE_ACCESS then _ else _) as [idx|];
    [|discriminate].
  destruct (fst _ >? 0).
  - destruct (kmalloc _); [|intros H; inversion H; subst; auto].
    destruct (pram_xattr_get _ _ _ (Some _) _) as [m bytes].
    destruct (pram_get_acl_finish _ _ _ _) as [q i1] eqn:Ef.
    intros H. inversion H; subst q i1.
    apply pram_get_acl_finish_frame in Ef.
    destruct Ef as (F1 & F2 & F3 & F4 & F5 & _).
    rewrite F1, F2, F3, F4, F5. auto.
  - destruct (pram_get_acl_finish _ _ _ _) as [q i1] eqn:Ef.
    intros H. inversion H; subst q i1.
    apply pram_get_acl_finish_frame in Ef.
    destruct Ef as (F1 & F2 & F3 & F4 & F5 & _).
    rewrite F1, F2, F3, F4, F5. auto.
Qed.

(** X10: a get that did not end in an error can be repeated: the second
    get returns the same pointer and leaves the inode, its history
    included, as it is, so it makes no call to the attribute store. *)
Theorem pram_get_acl_repeat (ino ino' : inode) (type : Z)
    (p : ptr posix_acl) :
  pram_get_acl ino type = Some (p, ino') ->
  IS_ERR p = false ->
  pram_get_acl ino' type = Some (p, ino').
Proof.
  intros H Hp. pose proof H as H0. unfold pram_get_acl in H.
  destruct (test_opt_POSIX_ACL (i_sb ino)) eqn:Ho; cbn [negb] in H;
    [|inversion H; subst; exact H0].
  destruct (get_cached_acl ino type) as [c|] eqn:Hc; [|discriminate].
  destruct (negb (is_not_cached c));
    [inversion H; subst; exact H0|].
  assert (Hty : type = ACL_TYPE_ACCESS \/ type = ACL_TYPE_DEFAULT).
  { unfold get_cached_acl in Hc.
    destruct (Z.eqb_spec type ACL_TYPE_ACCESS); [auto|].
    destruct (Z.eqb_spec type ACL_TYPE_DEFAULT); [auto|discriminate]. }
  destruct (if type =? ACL_TYPE_ACCESS then _ else _) as [idx|];
    [|discriminate].
  assert (Hfin : forall (i : inode) (r : Z) (v : option (list byte)),
            test_opt_POSIX_ACL (i_sb i) = true ->
            pram_get_acl_finish i type r v = (p, ino') ->
            pram_get_acl ino' type = Some (p, ino')).
  { intros i r v Hi E. apply pram_get_acl_finish_frame in E.
    destruct E as (_ & _ & _ & _ & _ & E). rewrite (E Hp).
    apply pram_get_acl_cached.
    - destruct (set_cached_acl_frame i type p) as (_ & _ & _ & F & _).
      rewrite F. exact Hi.
    - apply get_cached_acl_set_cached_acl. exact Hty.
    - apply IS_ERR_false_cached. exact Hp. }
  destruct (fst _ >? 0).
  - destruct (kmalloc _).
    + destruct (pram_xattr_get _ _ _ (Some _) _) as [m bytes].
      destruct (pram_get_acl_finish _ _ _ _) as [q i1] eqn:Ef.
      inversion H; subst q i1. eapply Hfin; [|exact Ef]. exact Ho.
    + inversion H; subst p. discriminate.
  - destruct (pram_get_acl_finish _ _ _ _) as [q i1] eqn:Ef.
    inversion H; subst q i1. eapply Hfin; [|exact Ef]. exact Ho.
Qed.

(** X11: for the two ACL types [pram_get_acl] never reaches [BUG()]. *)
Theorem pram_get_acl_no_bug (ino : inode) (type : Z) :
  type = ACL_TYPE_ACCESS \/ type = ACL_TYPE_DEFAULT ->
  exists p ino', pram_get_acl ino type = Some (p, ino').
Proof.
  intros Hty. unfold pram_get_acl.
  destruct (negb (test_opt_POSIX_ACL (i_sb ino))); [eauto|].
  assert (Hc : exists c, get_cached_acl ino type = Some c)
    by (destruct Hty as [-> | ->]; eexists; reflexivity).
  destruct Hc as [c Hc]. rewrite Hc.
  destruct (negb (is_not_cached c)); [eauto|].
  assert (Hi : exists idx,
            (if type =? ACL_TYPE_ACCESS
             then Some PRAM_XATTR_INDEX_POSIX_ACL_ACCESS
             else if type =? ACL_TYPE_DEFAULT
                  then Some PRAM_XATTR_INDEX_POSIX_ACL_DEFAULT
                  else None) = Some idx)
    by (destruct Hty as [-> | ->]; eexists; reflexivity).
  destruct Hi as [idx Hi]. rewrite Hi.
  destruct (fst _ >? 0).
  - destruct (kmalloc _); [|eauto].
    destruct (pram_xattr_get _ _ _ (Some _) _) as [m bytes].
    destruct (pram_get_acl_finish _ _ _ _). eauto.
  - destruct (pram_get_acl_finish _ _ _ _). eauto.
Qed.

End StoreMore.

Section SetMore.
Context {L : AclLayout} {M : Memory} {X : Xattr} {K : Kernel}.

Lemma IS_ERR_PTR_ERR (A : Type) (p : ptr A) :
  IS_ERR p = true -> PTR_ERR p < 0.
Proof.
  destruct p as [| |v]; cbn [IS_ERR PTR_ERR]; try discriminate. lia.
Qed.

Lemma S_ISDIR_not_S_ISLNK (m : Z) : S_ISDIR m = true -> S_ISLNK m = false.
Proof.
  unfold S_ISDIR, S_ISLNK, S_IFDIR, S_IFLNK. lia.
Qed.

Lemma set_cached_acl_other (i : inode) (type : Z) (acl : ptr posix_acl) :
  (type = ACL_TYPE_ACCESS ->
   i_default_acl (set_cached_acl i type acl) = i_default_acl i)
  /\ (type = ACL_TYPE_DEFAULT ->
      i_acl (set_cached_acl i type acl) = i_acl i).
Proof. split; intros ->; reflexivity. Qed.

(** What the end of [pram_set_acl] does to the inode. *)
Lemma pram_set_acl_store_effect (ino ino' : inode) (type name_index e : Z)
    (acl : option posix_acl) :
  pram_set_acl_store ino type name_index acl = (e, ino') ->
  i_sb ino' = i_sb ino
  /\ i_mode ino' = i_mode ino
  /\ i_ctime ino' = i_ctime ino
  /\ i_dirty ino' = i_dirty ino
  /\ (e <> 0 ->
      i_acl ino' = i_acl ino /\ i_default_acl ino' = i_default_acl ino)
  /\ (e = 0 ->
      type = ACL_TYPE_ACCESS \/ type = ACL_TYPE_DEFAULT ->
      get_cached_acl ino' type = Some (ptr_of_option acl))
  /\ (type = ACL_TYPE_ACCESS -> i_default_acl ino' = i_default_acl ino)
  /\ (type = ACL_TYPE_DEFAULT -> i_acl ino' = i_acl ino).
Proof.
  unfold pram_set_acl_store.
  destruct (match acl with Some a => pram_acl_save a | None => (NULL, 0) end)
    as [value size].
  destruct (IS_ERR value) eqn:Ei.
  - intros H; inversion H; subst.
    apply IS_ERR_PTR_ERR in Ei.
    repeat split; auto; intros; lia.
  - destruct (pram_xattr_set _ _ _ _ _ _) as [error xs].
    set (i1 := record (with_xattr ino xs) (EvXattrSet name_index value size)).
    destruct (Z.eqb_spec error 0) as [E0|E0]; intros H; inversion H; subst.
    + destruct (set_cached_acl_frame i1 type (ptr_of_option acl))
        as (F1 & F2 & F3 & F4 & _).
      destruct (set_cached_acl_other i1 type (ptr_of_option acl))
        as [O1 O2].
      rewrite F1, F2, F3, F4.
      repeat split; auto.
      * intros; contradiction.
      * intros; contradiction.
      * intros _ Hty. apply get_cached_acl_set_cached_acl. exact Hty.
    + repeat split; auto. intros; contradiction.
Qed.

(** X12: a set that fails, for whatever reason, leaves both cache slots of
    the inode as they were. *)
Theorem pram_set_acl_failed_keeps_cache (ino ino' : inode) (type e : Z)
    (acl : option posix_acl) :
  pram_set_acl ino type acl = (e, ino') ->
  e <> 0 ->
  i_acl ino' = i_acl ino /\ i_default_acl ino' = i_default_acl ino.
Proof.
  unfold pram_set_acl. intros H He.
  destruct (S_ISLNK (i_mode ino)); [inversion H; subst; auto|].
  destruct (negb (test_opt_POSIX_ACL (i_sb ino)));
    [inversion H; subst; auto|].
  destruct (type =? ACL_TYPE_ACCESS).
  - destruct acl as [a|].
    + destruct (posix_acl_equiv_mode a (i_mode ino)) as [error mode].
      destruct (error <? 0); [inversion H; subst; auto|].
      apply pram_set_acl_store_effect in H.
      destruct H as (_ & _ & _ & _ & Hc & _). apply Hc. exact He.
    + apply pram_set_acl_store_effect in H.
      destruct H as (_ & _ & _ & _ & Hc & _). apply Hc. exact He.
  - destruct (type =? ACL_TYPE_DEFAULT); [|inversion H; subst; auto].
    destruct (negb (S_ISDIR (i_mode ino))); [inversion H; subst; auto|].
    apply pram_set_acl_store_effect in H.
    destruct H as (_ & _ & _ & _ & Hc & _). apply Hc. exact He.
Qed.

(** X13: read your writes.  After a set that returned 0 (of an access
    ACL, or of a default ACL on a directory) the get of the same type
    answers from the cache, without a call to the attribute store, with
    exactly what the set left behind: the ACL that was set, or [NULL] when
    none was set or when the access ACL was judged equivalent to the mode
    by [posix_acl_equiv_mode]. *)
Theorem pram_set_acl_then_get (ino ino' : inode) (type : Z)
    (acl : option posix_acl) :
  S_ISLNK (i_mode ino) = false ->
  test_opt_POSIX_ACL (i_sb ino) = true ->
  type = ACL_TYPE_ACCESS
  \/ (type = ACL_TYPE_DEFAULT /\ S_ISDIR (i_mode ino) = true) ->
  pram_set_acl ino type acl = (0, ino') ->
  pram_get_acl ino' type
  = Some (match acl with
          | None => NULL
          | Some a =>
              if (type =? ACL_TYPE_ACCESS)
                 && (fst (posix_acl_equiv_mode a (i_mode ino)) =? 0)
              then NULL else Obj a
          end, ino').
Proof.
  intros Hl Ho Hty H. unfold pram_set_acl in H. rewrite Hl, Ho in H.
  cbn [negb] in H.
  assert (Hfin : forall (i : inode) (idx : Z) (stored : option posix_acl),
            test_opt_POSIX_ACL (i_sb i) = true ->
            pram_set_acl_store i type idx stored = (0, ino') ->
            pram_get_acl ino' type = Some (ptr_of_option stored, ino')).
  { intros i idx stored Hi Hs.
    apply pram_set_acl_store_effect in Hs.
    destruct Hs as (Hsb & _ & _ & _ & _ & Hc & _).
    apply pram_get_acl_cached.
    - rewrite Hsb. exact Hi.
    - apply Hc; [reflexivity|]. destruct Hty as [?|[? _]]; auto.
    - destruct stored; reflexivity. }
  destruct Hty as [->|[-> Hd]].
  - cbn [Z.eqb ACL_TYPE_ACCESS Pos.eqb andb] in H |- *.
    destruct acl as [a|].
    + destruct (posix_acl_equiv_mode a (i_mode ino)) as [error mode].
      cbn [fst].
      destruct (Z.ltb_spec error 0); [inversion H; lia|].
      rewrite ((fun Hi => Hfin _ _ _ Hi H) Ho).
      destruct (error =? 0); reflexivity.
    + rewrite ((fun Hi => Hfin _ _ _ Hi H) Ho). reflexivity.
  - cbn [Z.eqb ACL_TYPE_ACCESS ACL_TYPE_DEFAULT Pos.eqb andb] in H |- *.
    rewrite Hd in H. cbn [negb] in H.
    rewrite ((fun Hi => Hfin _ _ _ Hi H) Ho). destruct acl; reflexivity.
Qed.

(** X14: an access ACL that [posix_acl_equiv_mode] does not judge
    equivalent to the mode (return value above 0) and whose tags are of the
    closed set: the mode is written and the inode marked dirty first.  If
    the block of [pram_acl_save] cannot be allocated the set ends there
    with [-ENOMEM], without a call to the attribute store.  Otherwise the
    store is called once, with that block and the size
    [pram_acl_size (a_count acl)]; the set returns what the store returns,
    and on 0 the ACL is in the cache slot. *)
Theorem pram_set_acl_extended (ino : inode) (acl : posix_acl)
    (error mode : Z) :
  S_ISLNK (i_mode ino) = false ->
  test_opt_POSIX_ACL (i_sb ino) = true ->
  posix_acl_equiv_mode acl (i_mode ino) = (error, mode) ->
  0 < error ->
  Forall (fun e => valid_tag (e_tag e) = true) acl ->
  (kmalloc_ok (sizeof_pram_acl_header
               + a_count acl * sizeof_pram_acl_entry) = false ->
   exists ino',
     pram_set_acl ino ACL_TYPE_ACCESS (Some acl) = (- ENOMEM, ino')
     /\ i_mode ino' = mode
     /\ i_dirty ino' = true
     /\ i_xattr ino' = i_xattr ino
     /\ i_acl ino' = i_acl ino
     /\ i_trace ino' = i_trace ino ++ [EvEquivMode mode; EvMarkDirty])
  /\ (kmalloc_ok (sizeof_pram_acl_header
                  + a_count acl * sizeof_pram_acl_entry) = true ->
      exists ext_acl ino',
        pram_acl_save acl = (Obj ext_acl, pram_acl_size (a_count acl))
        /\ pram_set_acl ino ACL_TYPE_ACCESS (Some acl)
           = (fst (pram_xattr_set (i_xattr ino)
                     PRAM_XATTR_INDEX_POSIX_ACL_ACCESS String.EmptyString
                     (Obj ext_acl) (pram_acl_size (a_count acl)) 0),
              ino')
        /\ i_mode ino' = mode
        /\ i_dirty ino' = true
        /\ i_ctime ino' = CURRENT_TIME_SEC
        /\ i_trace ino'
           = i_trace ino
             ++ [EvEquivMode mode; EvMarkDirty;
                 EvXattrSet PRAM_XATTR_INDEX_POSIX_ACL_ACCESS (Obj ext_acl)
                   (pram_acl_size (a_count acl))]
        /\ (fst (pram_xattr_set (i_xattr ino)
                   PRAM_XATTR_INDEX_POSIX_ACL_ACCESS String.EmptyString
                   (Obj ext_acl) (pram_acl_size (a_count acl)) 0) = 0 ->
            i_acl ino' = Obj acl)).
Proof.
  intros Hl Ho He Hpos Hv.
  assert (Hpre :
    pram_set_acl ino ACL_TYPE_ACCESS (Some acl)
    = pram_set_acl_store
        (mark_inode_dirty
           (with_ctime (record (with_mode ino mode) (EvEquivMode mode))
              CURRENT_TIME_SEC))
        ACL_TYPE_ACCESS PRAM_XATTR_INDEX_POSIX_ACL_ACCESS (Some acl)).
  { unfold pram_set_acl. rewrite Hl, Ho, He.
    cbn [negb Z.eqb ACL_TYPE_ACCESS Pos.eqb].
    destruct (Z.ltb_spec error 0); [lia|].
    destruct (Z.eqb_spec error 0); [lia|]. reflexivity. }
  rewrite Hpre. unfold pram_set_acl_store.
  split; intros Hk.
  - unfold pram_acl_save, kmalloc. rewrite Hk. cbn [IS_ERR ERR_PTR PTR_ERR].
    eexists. split; [reflexivity|].
    do 4 (split; [reflexivity|]).
    cbn. rewrite <- app_assoc. reflexivity.
  - assert (Hs : exists ext_acl,
              pram_acl_save acl
              = (Obj ext_acl, pram_acl_size (a_count acl))).
    { unfold pram_acl_save, kmalloc. rewrite Hk.
      destruct (save_entries_valid _ Hv sizeof_pram_acl_header
                  (poke (fresh_block
                           (sizeof_pram_acl_header
                            + a_count acl * sizeof_pram_acl_entry))
                     0 (cpu_to_be32 PRAM_ACL_VERSION))) as [b Hb].
      rewrite Hb. eauto. }
    destruct Hs as [ext_acl Hs]. exists ext_acl.
    rewrite Hs. cbn [IS_ERR].
    change (i_xattr (mark_inode_dirty _)) with (i_xattr ino).
    destruct (pram_xattr_set _ _ _ _ _ _) as [err xs]. cbn [fst].
    assert (Htr : forall t : list event,
              ((t ++ [EvEquivMode mode]) ++ [EvMarkDirty])
                ++ [EvXattrSet PRAM_XATTR_INDEX_POSIX_ACL_ACCESS
                      (Obj ext_acl) (pram_acl_size (a_count acl))]
              = t ++ [EvEquivMode mode; EvMarkDirty;
                      EvXattrSet PRAM_XATTR_INDEX_POSIX_ACL_ACCESS
                        (Obj ext_acl) (pram_acl_size (a_count acl))])
      by (intros t; rewrite <- !app_assoc; reflexivity).
    destruct (Z.eqb_spec err 0) as [E0|E0].
    + eexists. split; [reflexivity|]. split; [reflexivity|].
      do 3 (split; [reflexivity|]).
      split; [apply Htr|]. intros _. reflexivity.
    + eexists. split; [reflexivity|]. split; [reflexivity|].
      do 3 (split; [reflexivity|]).
      split; [apply Htr|]. intros; contradiction.
Qed.

(** X15: a default ACL with an entry whose tag is outside the closed set
    is refused on a directory before the attribute store is called, with
    [-EINVAL], or with [-ENOMEM] when the block of [pram_acl_save] cannot
    be allocated; the inode is untouched. *)
Theorem pram_set_acl_default_invalid_tag (ino : inode) (acl : posix_acl) :
  S_ISDIR (i_mode ino) = true ->
  test_opt_POSIX_ACL (i_sb ino) = true ->
  Exists (fun e => valid_tag (e_tag e) = false) acl ->
  pram_set_acl ino ACL_TYPE_DEFAULT (Some acl)
  = (if kmalloc_ok (sizeof_pram_acl_header
                    + a_count acl * sizeof_pram_acl_entry)
     then - EINVAL else - ENOMEM, ino).
Proof.
  intros Hd Ho Hx. unfold pram_set_acl.
  rewrite (S_ISDIR_not_S_ISLNK _ Hd), Ho, Hd.
  cbn [negb Z.eqb ACL_TYPE_ACCESS ACL_TYPE_DEFAULT Pos.eqb].
  unfold pram_set_acl_store, pram_acl_save, kmalloc.
  destruct (kmalloc_ok _); [|reflexivity].
  rewrite (save_entries_invalid _ Hx). reflexivity.
Qed.


(** X17: with ACL support on and the empty attribute name, a caller that
    neither owns the inode nor is capable gets [-EPERM], whatever the
    value: it is not parsed, and the inode is untouched. *)
Theorem pram_xattr_set_acl_not_owner (de : dentry)
    (value : option (list byte)) (size flags type : Z) :
  test_opt_POSIX_ACL (i_sb (d_inode de)) = true ->
  inode_owner_or_capable (d_inode de) = false ->
  pram_xattr_set_acl de String.EmptyString value size flags type
  = (- EPERM, d_inode de).
Proof.
  intros Ho Hc. unfold pram_xattr_set_acl. rewrite Ho, Hc. reflexivity.
Qed.

(** X18: a value that [posix_acl_from_xattr] cannot parse, and an ACL that
    [posix_acl_valid] refuses, end the set handler with that error before
    [pram_set_acl] is called: the inode (mode, stored attributes, cache)
    is untouched. *)
Theorem pram_xattr_set_acl_invalid (de : dentry) (v : list byte)
    (size flags type e : Z) :
  test_opt_POSIX_ACL (i_sb (d_inode de)) = true ->
  inode_owner_or_capable (d_inode de) = true ->
  posix_acl_from_xattr v size = inl e
  \/ (exists acl,
        posix_acl_from_xattr v size = inr (Some acl)
        /\ posix_acl_valid acl = e /\ e <> 0) ->
  pram_xattr_set_acl de String.EmptyString (Some v) size flags type
  = (e, d_inode de).
Proof.
  intros Ho Hc H. unfold pram_xattr_set_acl. rewrite Ho, Hc.
  cbn [String.eqb negb].
  destruct H as [-> | (acl & -> & Hv & He)]; [reflexivity|].
  rewrite Hv. destruct (Z.eqb_spec e 0); [contradiction|reflexivity].
Qed.

End SetMore.

(** ** Inheritance, chmod, and the list and get handlers *)

Section HandlersMore.
Context {L : AclLayout} {M : Memory} {X : Xattr} {K : Kernel}
  {KA : KernelAcl}.

(** X19: what the get handler answers when there is no ACL to hand out.
    An inode without the attribute (the cache says so, or nothing is
    cached and the attribute store answers one of its two calls with
    [-ENODATA], with [-ENOSYS] or with 0 bytes) makes it fail with
    [-ENODATA]; any other error number of one of the two calls is handed
    through, and so is [-ENOMEM] when the buffer for the value cannot be
    allocated.  The caller's buffer is untouched, [posix_acl_to_xattr] is
    not reached, and the stored attributes are as before. *)
Theorem pram_xattr_get_acl_no_value (de : dentry)
    (buffer : option (list byte)) (size type name_index r : Z) :
  test_opt_POSIX_ACL (i_sb (d_inode de)) = true ->
  (type = ACL_TYPE_ACCESS
   /\ name_index = PRAM_XATTR_INDEX_POSIX_ACL_ACCESS)
  \/ (type = ACL_TYPE_DEFAULT
      /\ name_index = PRAM_XATTR_INDEX_POSIX_ACL_DEFAULT) ->
  (get_cached_acl (d_inode de) type = Some NULL /\ r = - ENODATA)
  \/ (get_cached_acl (d_inode de) type = Some ACL_NOT_CACHED
      /\ exists n,
           fst (pram_xattr_get (i_xattr (d_inode de)) name_index
                  String.EmptyString None 0) = n
           /\ ((- MAX_ERRNO <= n <= 0
                /\ r = (if (n =? 0) || (n =? - ENODATA) || (n =? - ENOSYS)
                        then - ENODATA else n))
               \/ (0 < n /\ kmalloc_ok n = false /\ r = - ENOMEM)
               \/ (0 < n /\ kmalloc_ok n = true
                   /\ exists e,
                        fst (pram_xattr_get (i_xattr (d_inode de))
                               name_index String.EmptyString
                               (Some (fresh_block n)) n) = e
                        /\ - MAX_ERRNO <= e <= 0
                        /\ r = (if (e =? 0) || (e =? - ENODATA)
                                   || (e =? - ENOSYS)
                                then - ENODATA else e)))) ->
  exists ino',
    pram_xattr_get_acl de String.EmptyString buffer size type
    = Some (r, ino', buffer)
    /\ i_xattr ino' = i_xattr (d_inode de).
Proof.
  intros Ho Ht H. unfold pram_xattr_get_acl. rewrite Ho.
  cbn [String.eqb negb].
  assert (Hfin : forall (i : inode) (e : Z) (v : option (list byte)),
            i_xattr i = i_xattr (d_inode de) ->
            - MAX_ERRNO <= e <= 0 ->
            exists ino',
              (let '(acl, ino) := pram_get_acl_finish i type e v in
               if IS_ERR acl then Some (PTR_ERR acl, ino, buffer)
               else
                 match acl with
                 | NULL => Some (- ENODATA, ino, buffer)
                 | Obj a =>
                     let '(error, buffer) :=
                       posix_acl_to_xattr a buffer size in
                     Some (error, ino, buffer)
                 | Raw _ => None
                 end)
              = Some (if (e =? 0) || (e =? - ENODATA) || (e =? - ENOSYS)
                      then - ENODATA else e, ino', buffer)
              /\ i_xattr ino' = i_xattr (d_inode de)).
  { intros i e v Hx He.
    rewrite (pram_get_acl_finish_no_value i type e v He).
    destruct ((e =? 0) || (e =? - ENODATA) || (e =? - ENOSYS)) eqn:Hab.
    - cbn [IS_ERR]. eexists. split; [reflexivity|].
      destruct (set_cached_acl_frame i type NULL) as (_ & _ & _ & _ & F & _).
      rewrite F. exact Hx.
    - assert (Hi : IS_ERR (@Raw posix_acl e) = true)
        by (cbn [IS_ERR]; lia).
      rewrite Hi. cbn [PTR_ERR]. eexists. split; [reflexivity|exact Hx]. }
  destruct H as [[Hc ->]|(Hc & n & Hg & Hcase)].
  - rewrite (pram_get_acl_cached _ _ _ Ho Hc eq_refl). cbn [IS_ERR].
    eexists. split; reflexivity.
  - rewrite (pram_get_acl_miss _ type name_index Ho Ht Hc). cbv zeta.
    rewrite Hg.
    destruct Hcase as [[Hn ->]|[(Hn & Hk & ->)|(Hn & Hk & e & Hs & He & ->)]].
    + destruct (Z.gtb_spec n 0); [lia|].
      apply Hfin; [reflexivity|exact Hn].
    + destruct (Z.gtb_spec n 0); [|lia]. rewrite Hk.
      cbn [IS_ERR ERR_PTR PTR_ERR]. eexists. split; reflexivity.
    + destruct (Z.gtb_spec n 0); [|lia]. rewrite Hk, Hs.
      apply Hfin; [reflexivity|exact He].
Qed.

Lemma poke_0 (l img : list byte) : poke l 0 img = img ++ skipn (length img) l.
Proof. reflexivity. Qed.

Lemma firstn_skipn_prefix (img r : list byte) :
  firstn (length img) (img ++ r) = img
  /\ skipn (length img) (img ++ r) = r.
Proof.
  induction img as [|b img [IH1 IH2]]; [split; reflexivity|].
  cbn [length app firstn skipn]. rewrite IH1, IH2. split; reflexivity.
Qed.

(** X20: the list handlers report the size of the attribute name with its
    terminating zero (24 and 25 bytes) whenever ACL support is on, whether
    or not a list is given and whatever its size, and 0 when it is off;
    a list that is missing or smaller than the name is left as it is. *)
Theorem pram_xattr_list_acl_size (de : dentry) (lst : option (list byte))
    (list_size : Z) (name : String.string) (name_len type : Z) :
  fst (pram_xattr_list_acl_access de lst list_size name name_len type)
  = (if test_opt_POSIX_ACL (i_sb (d_inode de)) then 24 else 0)
  /\ fst (pram_xattr_list_acl_default de lst list_size name name_len type)
     = (if test_opt_POSIX_ACL (i_sb (d_inode de)) then 25 else 0)
  /\ (test_opt_POSIX_ACL (i_sb (d_inode de)) = false \/ lst = None
      \/ list_size < 24 ->
      snd (pram_xattr_list_acl_access de lst list_size name name_len type)
      = lst)
  /\ (test_opt_POSIX_ACL (i_sb (d_inode de)) = false \/ lst = None
      \/ list_size < 25 ->
      snd (pram_xattr_list_acl_default de lst list_size name name_len type)
      = lst).
Proof.
  unfold pram_xattr_list_acl_access, pram_xattr_list_acl_default.
  change (sizeof_literal POSIX_ACL_XATTR_ACCESS) with 24.
  change (sizeof_literal POSIX_ACL_XATTR_DEFAULT) with 25.
  destruct (test_opt_POSIX_ACL (i_sb (d_inode de))); cbn [negb].
  - destruct lst as [l|]; cbn [fst snd].
    + destruct (Z.leb_spec 24 list_size); destruct (Z.leb_spec 25 list_size);
        cbn [fst snd]; repeat split; auto;
        intros [Q|[Q|Q]]; try discriminate; lia.
    + repeat split; auto.
  - cbn [fst snd]. repeat split; auto.
Qed.

(** X21: a list that is large enough (the size of the name with its
    zero, 24 or 25 bytes, is enough) receives the name and its terminating
    zero at its start; the bytes behind them and the length of the list
    are as before, so nothing is written outside the [list_size] bytes the
    caller offers. *)
Theorem pram_xattr_list_acl_written (de : dentry) (l : list byte)
    (list_size : Z) (name : String.string) (name_len type : Z) :
  test_opt_POSIX_ACL (i_sb (d_inode de)) = true ->
  list_size <= Z.of_nat (length l) ->
  (24 <= list_size ->
   exists l',
     pram_xattr_list_acl_access de (Some l) list_size name name_len type
     = (24, Some l')
     /\ firstn 24 l' = literal POSIX_ACL_XATTR_ACCESS
     /\ skipn 24 l' = skipn 24 l
     /\ length l' = length l)
  /\ (25 <= list_size ->
      exists l',
        pram_xattr_list_acl_default de (Some l) list_size name name_len type
        = (25, Some l')
        /\ firstn 25 l' = literal POSIX_ACL_XATTR_DEFAULT
        /\ skipn 25 l' = skipn 25 l
        /\ length l' = length l).
Proof.
  intros Ho Hs.
  unfold pram_xattr_list_acl_access, pram_xattr_list_acl_default.
  change (sizeof_literal POSIX_ACL_XATTR_ACCESS) with 24.
  change (sizeof_literal POSIX_ACL_XATTR_DEFAULT) with 25.
  rewrite Ho. cbn [negb]. rewrite !poke_0.
  assert (La : length (literal POSIX_ACL_XATTR_ACCESS) = 24%nat)
    by reflexivity.
  assert (Ld : length (literal POSIX_ACL_XATTR_DEFAULT) = 25%nat)
    by reflexivity.
  split; intros Hge.
  - destruct (Z.leb_spec 24 list_size); [|lia].
    eexists. split; [reflexivity|].
    destruct (firstn_skipn_prefix (literal POSIX_ACL_XATTR_ACCESS)
                (skipn (length (literal POSIX_ACL_XATTR_ACCESS)) l))
      as [F S].
    rewrite La in F, S. split; [exact F|]. split; [rewrite La; exact S|].
    rewrite length_app, La, length_skipn. lia.
  - destruct (Z.leb_spec 25 list_size); [|lia].
    eexists. split; [reflexivity|].
    destruct (firstn_skipn_prefix (literal POSIX_ACL_XATTR_DEFAULT)
                (skipn (length (literal POSIX_ACL_XATTR_DEFAULT)) l))
      as [F S].
    rewrite Ld in F, S. split; [exact F|]. split; [rewrite Ld; exact S|].
    rewrite length_app, Ld, length_skipn. lia.
Qed.

(** X22: [pram_acl_chmod] has nothing to do, and returns 0, when ACL
    support is off (on a symbolic link too: here the option is tested
    first) and when the inode has no access ACL (the cache says so, or
    nothing is cached and the attribute store answers [-ENODATA]); the
    mode and the stored attributes are as before. *)
Theorem pram_acl_chmod_nothing (ino : inode) :
  test_opt_POSIX_ACL (i_sb ino) = false
  \/ (test_opt_POSIX_ACL (i_sb ino) = true
      /\ S_ISLNK (i_mode ino) = false
      /\ (get_cached_acl ino ACL_TYPE_ACCESS = Some NULL
          \/ (get_cached_acl ino ACL_TYPE_ACCESS = Some ACL_NOT_CACHED
              /\ fst (pram_xattr_get (i_xattr ino)
                        PRAM_XATTR_INDEX_POSIX_ACL_ACCESS String.EmptyString
                        None 0) = - ENODATA))) ->
  exists ino',
    pram_acl_chmod ino = Some (0, ino')
    /\ i_mode ino' = i_mode ino
    /\ i_xattr ino' = i_xattr ino.
Proof.
  unfold pram_acl_chmod.
  intros [Ho|(Ho & Hl & [Hc|[Hc Hg]])].
  - rewrite Ho. cbn [negb]. eexists. repeat split; reflexivity.
  - rewrite Ho, Hl. cbn [negb].
    rewrite (pram_get_acl_cached _ _ _ Ho Hc eq_refl). cbn [IS_ERR PTR_ERR].
    eexists. repeat split; reflexivity.
  - rewrite Ho, Hl. cbn [negb].
    rewrite (pram_get_acl_miss ino ACL_TYPE_ACCESS
               PRAM_XATTR_INDEX_POSIX_ACL_ACCESS Ho
               (or_introl (conj eq_refl eq_refl)) Hc).
    cbv zeta. rewrite Hg. cbn [Z.gtb Z.compare ENODATA Z.opp].
    rewrite pram_get_acl_finish_no_value
      by (unfold MAX_ERRNO, ENODATA; lia).
    cbn [Z.eqb orb ENODATA ENOSYS Z.opp Pos.eqb IS_ERR PTR_ERR].
    eexists. repeat split; reflexivity.
Qed.

(** X23: with ACL support on, on a symbolic link [pram_acl_chmod] fails
    with [-EOPNOTSUPP]; on another inode whose access ACL is cached, an
    error of [posix_acl_chmod] is returned as it is.  Neither touches the
    inode: nothing is stored. *)
Theorem pram_acl_chmod_error (ino : inode) (e : Z) :
  test_opt_POSIX_ACL (i_sb ino) = true ->
  (S_ISLNK (i_mode ino) = true /\ e = - EOPNOTSUPP)
  \/ (S_ISLNK (i_mode ino) = false
      /\ e <> 0
      /\ exists acl,
           get_cached_acl ino ACL_TYPE_ACCESS = Some (Obj acl)
           /\ fst (posix_acl_chmod acl (i_mode ino)) = e) ->
  pram_acl_chmod ino = Some (e, ino).
Proof.
  intros Ho H. unfold pram_acl_chmod. rewrite Ho. cbn [negb].
  destruct H as [[Hl ->]|(Hl & He & acl & Hc & Hm)]; rewrite Hl;
    [reflexivity|].
  rewrite (pram_get_acl_cached _ _ _ Ho Hc eq_refl). cbn [IS_ERR].
  destruct (posix_acl_chmod acl (i_mode ino)) as [error acl'].
  cbn [fst] in Hm. subst error.
  destruct (Z.eqb_spec e 0); [contradiction|reflexivity].
Qed.

(** X24: a new symbolic link gets neither the umask nor an ACL:
    [pram_init_acl] returns 0 and leaves the new inode and the directory
    as they are; the directory's default ACL is not even fetched. *)
Theorem pram_init_acl_symlink (ino dir : inode) :
  S_ISLNK (i_mode ino) = true ->
  pram_init_acl ino dir = Some (0, ino, dir).
Proof.
  intros Hl. unfold pram_init_acl. rewrite Hl. reflexivity.
Qed.

(** X25: a new inode that is no symbolic link, under a directory without
    ACL support or without a default ACL, gets the umask applied to its
    mode and nothing else: [pram_init_acl] returns 0, and apart from the
    mode the new inode is as before (nothing is stored or cached for
    it). *)
Theorem pram_init_acl_no_default (ino dir dir' : inode) :
  S_ISLNK (i_mode ino) = false ->
  (test_opt_POSIX_ACL (i_sb dir) = false /\ dir' = dir)
  \/ (test_opt_POSIX_ACL (i_sb dir) = true
      /\ pram_get_acl dir ACL_TYPE_DEFAULT = Some (NULL, dir')) ->
  pram_init_acl ino dir
  = Some (0, with_mode ino (Z.land (i_mode ino) (Z.lnot current_umask)),
          dir').
Proof.
  intros Hl H. unfold pram_init_acl. rewrite Hl. cbn [negb].
  destruct H as [[Ho ->]|[Ho Hg]]; rewrite Ho.
  - reflexivity.
  - rewrite Hg. reflexivity.
Qed.

(** X26: a new inode that is neither a symbolic link nor a directory,
    under a directory with a default ACL: the umask is not applied and no
    default ACL is set on the new inode; [posix_acl_create] decides.  On
    its error the new inode is as before; on 0 the inode gets the mode it
    computed and nothing is stored; above 0 the inode gets that mode and
    the ACL it left is set as the access ACL. *)
Theorem pram_init_acl_inherit_file (ino dir dir' : inode)
    (acl : posix_acl) (error mode : Z) (acl' : option posix_acl) :
  S_ISLNK (i_mode ino) = false ->
  S_ISDIR (i_mode ino) = false ->
  test_opt_POSIX_ACL (i_sb dir) = true ->
  test_opt_POSIX_ACL (i_sb ino) = true ->
  pram_get_acl dir ACL_TYPE_DEFAULT = Some (Obj acl, dir') ->
  posix_acl_create acl (i_mode ino) = (error, acl', mode) ->
  pram_init_acl ino dir
  = if error <? 0 then Some (error, ino, dir')
    else if error >? 0 then
      Some (pram_set_acl (with_mode ino mode) ACL_TYPE_ACCESS acl', dir')
    else Some (0, with_mode ino mode, dir').
Proof.
  intros Hl Hd Ho Hi Hg Hc. unfold pram_init_acl.
  rewrite Hl, Ho, Hg. cbn [negb IS_ERR]. rewrite Hi.
  unfold pram_init_acl_inherit. rewrite Hd, Hc. cbn [Z.eqb negb].
  destruct (Z.ltb_spec error 0); [reflexivity|].
  destruct (Z.gtb_spec error 0).
  - destruct (pram_set_acl _ _ _). reflexivity.
  - replace error with 0 by lia. reflexivity.
Qed.

(** X27: a new directory takes over the default ACL of its parent first;
    when that set fails, [pram_init_acl] returns the error at once:
    [posix_acl_create] is not applied, the mode of the new directory is as
    before (no umask either), and no access ACL is set. *)
Theorem pram_init_acl_directory_default_fails (ino ino1 dir dir' : inode)
    (acl : posix_acl) (e : Z) :
  S_ISDIR (i_mode ino) = true ->
  test_opt_POSIX_ACL (i_sb dir) = true ->
  test_opt_POSIX_ACL (i_sb ino) = true ->
  pram_get_acl dir ACL_TYPE_DEFAULT = Some (Obj acl, dir') ->
  pram_set_acl ino ACL_TYPE_DEFAULT (Some acl) = (e, ino1) ->
  e <> 0 ->
  pram_init_acl ino dir = Some (e, ino1, dir')
  /\ i_mode ino1 = i_mode ino
  /\ i_acl ino1 = i_acl ino.
Proof.
  intros Hd Ho Hi Hg Hs He.
  split.
  - unfold pram_init_acl.
    rewrite (S_ISDIR_not_S_ISLNK _ Hd), Ho, Hg. cbn [negb IS_ERR].
    rewrite Hi. unfold pram_init_acl_inherit. rewrite Hd, Hs.
    destruct (Z.eqb_spec e 0); [contradiction|reflexivity].
  - unfold pram_set_acl in Hs.
    rewrite (S_ISDIR_not_S_ISLNK _ Hd), Hi, Hd in Hs.
    cbn [negb Z.eqb ACL_TYPE_ACCESS ACL_TYPE_DEFAULT Pos.eqb] in Hs.
    apply pram_set_acl_store_effect in Hs.
    destruct Hs as (_ & Hm & _ & _ & _ & _ & _ & Ha).
    split; [exact Hm|]. apply Ha. reflexivity.
Qed.

End HandlersMore.


(* ================================================================== *)
(** * The operations on concrete inputs *)

(** ** The codec *)

(** [pram_acl_save] of the one entry (owner, rwx) on the reference layout:
    the version big-endian, the tag and the permission bits little-endian;
    the second half of the allocated record is not written and not part of
    the 8 bytes handed out. *)
Example pram_acl_save_owner_rwx :
  @pram_acl_save ref_layout ref_memory acl_owner_rwx
  = (Obj [x00; x00; x00; x01; x01; x00; x07; x00; x5a; x5a; x5a; x5a], 8).
Proof. vm_compute. reflexivity. Qed.

(** [pram_acl_load] reads the same entry from a buffer whose tag and
    permission bits are big-endian. *)
Example pram_acl_load_big_endian :
  @pram_acl_load ref_layout ref_memory (Some buf_one_record) 8
  = Obj [mk_entry ACL_USER_OBJ 7 (-1)].
Proof. vm_compute. reflexivity. Qed.

(** It rejects what [pram_acl_save] wrote for that entry, and what it wrote
    for an extended ACL. *)
Example load_of_save_owner_rwx :
  @load_of_save ref_layout ref_memory acl_owner_rwx = ERR_PTR (- EINVAL).
Proof. vm_compute. reflexivity. Qed.

Example load_of_save_extended :
  @load_of_save ref_layout ref_memory acl_extended = ERR_PTR (- EINVAL).
Proof. vm_compute. reflexivity. Qed.

Lemma load_of_save_never_acl_witness :
  (1 <= a_count acl_owner_rwx
   /\ Forall (fun e => valid_tag (e_tag e) = true) acl_owner_rwx)
  /\ (@load_of_save ref_layout ref_memory acl_owner_rwx = NULL
      \/ @load_of_save ref_layout ref_memory acl_owner_rwx
         = ERR_PTR (- EINVAL))
  /\ forall acl',
       @load_of_save ref_layout ref_memory acl_owner_rwx <> Obj acl'.
Proof.
  assert (H1 : 1 <= a_count acl_owner_rwx) by (vm_compute; discriminate).
  assert (H2 : Forall (fun e => valid_tag (e_tag e) = true) acl_owner_rwx)
    by (repeat constructor).
  split; [split; assumption|].
  destruct (@load_of_save_never_acl ref_layout ref_memory acl_owner_rwx
              H1 H2) as (_ & Hok & Hnever).
  split; [apply Hok; reflexivity|exact Hnever].
Defined.

Lemma pram_acl_load_bad_header_witness :
  @pram_acl_load ref_layout ref_memory (Some [x00; x00]) 2
  = ERR_PTR (- EINVAL)
  /\ forall acl,
       @pram_acl_load ref_layout ref_memory (Some [x00; x00]) 2 <> Obj acl.
Proof.
  apply (@pram_acl_load_bad_header ref_layout ref_memory [x00; x00] 2).
  left. unfold sizeof_pram_acl_header. lia.
Defined.



(** C4 as stated fails for an empty buffer behind a non-null pointer: it
    is shorter than the header and an error, not [NULL]. *)
Lemma pram_acl_load_empty_buffer :
  @pram_acl_load ref_layout ref_memory (Some []) 0 = ERR_PTR (- EINVAL)
  /\ @pram_acl_load ref_layout ref_memory (Some []) 0 <> NULL.
Proof. split; [vm_compute; reflexivity|vm_compute; discriminate]. Defined.

Lemma pram_acl_load_absent_witness :
  @valid_header ref_layout buf_version_1 4
  /\ @pram_acl_load ref_layout ref_memory (Some buf_version_1) 4 = NULL
  /\ 1 <= a_count [mk_entry ACL_USER_OBJ 7 (-1)].
Proof.
  assert (Hh : @valid_header ref_layout buf_version_1 4).
  { split; [unfold sizeof_pram_acl_header; lia|vm_compute; reflexivity]. }
  destruct (@pram_acl_load_absent ref_layout ref_memory) as (_ & H2 & H3).
  split; [exact Hh|]. split.
  - apply (H2 buf_version_1 4 Hh). vm_compute. reflexivity.
  - apply (H3 (Some buf_one_record) 8 _ pram_acl_load_big_endian).
Defined.

(** ** The store adapter and the attribute handler *)

Lemma pram_set_acl_default_non_directory_witness :
  @pram_set_acl ref_layout ref_memory ref_xattr (ref_kernel ref_xattr true)
    file_not_cached ACL_TYPE_DEFAULT (Some acl_extended)
  = (- EACCES, file_not_cached)
  /\ @pram_set_acl ref_layout ref_memory ref_xattr
       (ref_kernel ref_xattr true) file_not_cached ACL_TYPE_DEFAULT None
     = (0, file_not_cached).
Proof.
  split.
  - apply (@pram_set_acl_default_non_directory ref_layout ref_memory
             ref_xattr (ref_kernel ref_xattr true) file_not_cached
             (Some acl_extended)); reflexivity.
  - apply (@pram_set_acl_default_non_directory ref_layout ref_memory
             ref_xattr (ref_kernel ref_xattr true) file_not_cached None);
      reflexivity.
Defined.

Lemma pram_set_acl_symlink_witness :
  @pram_set_acl ref_layout ref_memory ref_xattr (ref_kernel ref_xattr true)
    symlink_acl_on ACL_TYPE_ACCESS (Some acl_extended)
  = (- EOPNOTSUPP, symlink_acl_on).
Proof.
  apply (@pram_set_acl_symlink ref_layout ref_memory ref_xattr
           (ref_kernel ref_xattr true) symlink_acl_on ACL_TYPE_ACCESS
           (Some acl_extended)).
  reflexivity.
Defined.

(** C8 as stated fails on a symbolic link: with ACL support off the set
    still fails with [-EOPNOTSUPP]. *)
Lemma pram_set_acl_disabled_symlink :
  test_opt_POSIX_ACL (i_sb symlink_acl_off) = false
  /\ fst (@pram_set_acl ref_layout ref_memory ref_xattr
            (ref_kernel ref_xattr true) symlink_acl_off ACL_TYPE_ACCESS
            (Some acl_extended))
     = - EOPNOTSUPP
  /\ fst (@pram_set_acl ref_layout ref_memory ref_xattr
            (ref_kernel ref_xattr true) symlink_acl_off ACL_TYPE_ACCESS
            (Some acl_extended))
     <> 0.
Proof.
  split; [reflexivity|].
  split; [vm_compute; reflexivity|vm_compute; discriminate].
Defined.

Lemma pram_set_acl_disabled_witness :
  @pram_set_acl ref_layout ref_memory ref_xattr (ref_kernel ref_xattr true)
    file_acl_off ACL_TYPE_ACCESS (Some acl_extended)
  = (0, file_acl_off).
Proof.
  apply (@pram_set_acl_disabled ref_layout ref_memory ref_xattr
           (ref_kernel ref_xattr true) file_acl_off ACL_TYPE_ACCESS
           (Some acl_extended)).
  reflexivity.
Defined.

Lemma pram_get_acl_not_found_witness :
  exists ino',
    @pram_get_acl ref_layout ref_memory ref_xattr file_not_cached
      ACL_TYPE_ACCESS = Some (NULL, ino')
    /\ get_cached_acl ino' ACL_TYPE_ACCESS = Some NULL
    /\ i_trace ino' = i_trace file_not_cached ++ [EvXattrGet 2 0]
    /\ i_xattr ino' = i_xattr file_not_cached
    /\ @pram_get_acl ref_layout ref_memory ref_xattr ino' ACL_TYPE_ACCESS
       = Some (NULL, ino').
Proof.
  apply (@pram_get_acl_not_found ref_layout ref_memory ref_xattr
           file_not_cached ACL_TYPE_ACCESS 2).
  - reflexivity.
  - left. split; reflexivity.
  - reflexivity.
  - reflexivity.
Defined.



(** C10 as stated fails for a non-empty attribute name: the name check
    comes first and the handler fails with [-EINVAL]. *)
Lemma pram_xattr_set_acl_disabled_named :
  test_opt_POSIX_ACL (i_sb (d_inode (mk_dentry ref_xattr file_acl_off)))
  = false
  /\ fst (@pram_xattr_set_acl ref_layout ref_memory ref_xattr
            (ref_kernel ref_xattr true) (mk_dentry ref_xattr file_acl_off)
            name_x None 0 0 ACL_TYPE_ACCESS)
     = - EINVAL
  /\ fst (@pram_xattr_set_acl ref_layout ref_memory ref_xattr
            (ref_kernel ref_xattr true) (mk_dentry ref_xattr file_acl_off)
            name_x None 0 0 ACL_TYPE_ACCESS)
     <> - EOPNOTSUPP.
Proof.
  split; [reflexivity|].
  split; [vm_compute; reflexivity|vm_compute; discriminate].
Defined.

Lemma pram_xattr_set_acl_disabled_witness :
  fst (@pram_xattr_set_acl ref_layout ref_memory ref_xattr
         (ref_kernel ref_xattr false) (mk_dentry ref_xattr file_acl_off)
         String.EmptyString None 0 0 ACL_TYPE_ACCESS)
  = - EOPNOTSUPP
  /\ fst (@pram_xattr_set_acl ref_layout ref_memory ref_xattr
            (ref_kernel ref_xattr false) (mk_dentry ref_xattr file_acl_off)
            String.EmptyString None 0 0 ACL_TYPE_ACCESS)
     <> - EPERM.
Proof.
  destruct (@pram_xattr_set_acl_disabled ref_layout ref_memory ref_xattr
              (ref_kernel ref_xattr false)
              (mk_dentry ref_xattr file_acl_off) String.EmptyString None 0 0
              ACL_TYPE_ACCESS eq_refl) as [H1 H2].
  split; [rewrite H1; reflexivity|exact H2].
Defined.

(** ** Further properties on concrete inputs *)

Lemma pram_acl_save_invalid_tag_witness :
  @pram_acl_save ref_layout ref_memory acl_bad_tag
  = (ERR_PTR (- EINVAL), @pram_acl_size ref_layout (a_count acl_bad_tag))
  /\ @pram_acl_save ref_layout no_memory acl_bad_tag
     = (ERR_PTR (- ENOMEM), @pram_acl_size ref_layout (a_count acl_bad_tag)).
Proof.
  assert (H : Exists (fun e => valid_tag (e_tag e) = false) acl_bad_tag).
  { apply Exists_cons_tl. apply Exists_cons_hd. reflexivity. }
  split.
  - exact (@pram_acl_save_invalid_tag ref_layout ref_memory acl_bad_tag H).
  - exact (@pram_acl_save_invalid_tag ref_layout no_memory acl_bad_tag H).
Defined.

Lemma pram_acl_save_block_witness :
  Forall (fun e => valid_tag (e_tag e) = true) acl_extended
  /\ (exists ext_acl,
        @pram_acl_save ref_layout ref_memory acl_extended
        = (Obj ext_acl, @pram_acl_size ref_layout (a_count acl_extended))
        /\ Z.of_nat (length ext_acl)
           = sizeof_pram_acl_header
             + a_count acl_extended * sizeof_pram_acl_entry
        /\ field ext_acl 0 4 = cpu_to_be32 (@PRAM_ACL_VERSION ref_layout))
  /\ @pram_acl_save ref_layout no_memory acl_extended
     = (ERR_PTR (- ENOMEM), @pram_acl_size ref_layout (a_count acl_extended)).
Proof.
  assert (H : Forall (fun e => valid_tag (e_tag e) = true) acl_extended)
    by (repeat constructor).
  split; [exact H|]. split.
  - destruct (@pram_acl_save_block ref_layout ref_memory acl_extended H)
      as [_ Hok].
    apply Hok. reflexivity.
  - destruct (@pram_acl_save_block ref_layout no_memory acl_extended H)
      as [Hno _].
    apply Hno. reflexivity.
Defined.

Lemma pram_acl_load_entries_witness :
  exists buf,
    Some buf_one_record = Some buf
    /\ forall k off,
         Z.of_nat k < @pram_acl_count ref_layout 8 ->
         record_offset buf k sizeof_pram_acl_header = Some off ->
         exists e,
           nth_error [mk_entry ACL_USER_OBJ 7 (-1)] k = Some e
           /\ e_tag e = record_tag buf off
           /\ valid_tag (e_tag e) = true
           /\ e_perm e = be16_to_cpu (field buf (off + offsetof_e_perm) 2)
           /\ (e_tag e = ACL_USER ->
               e_id e
               = @make_kuid ref_memory
                   (be32_to_cpu (field buf (off + offsetof_e_id) 4)))
           /\ (e_tag e = ACL_GROUP ->
               e_id e
               = @make_kgid ref_memory
                   (be32_to_cpu (field buf (off + offsetof_e_id) 4))).
Proof.
  apply (@pram_acl_load_entries ref_layout ref_memory (Some buf_one_record) 8).
  vm_compute. reflexivity.
Defined.

Lemma pram_acl_load_reads_below_size_witness :
  @pram_acl_load ref_layout ref_memory (Some buf_one_record) 8
  = @pram_acl_load ref_layout ref_memory (Some (buf_one_record ++ [xff])) 8.
Proof.
  apply pram_acl_load_reads_below_size.
  intros i Hi. symmetry. apply app_nth1. exact Hi.
Defined.

Lemma pram_get_acl_store_error_witness :
  (exists ino',
      @pram_get_acl ref_layout ref_memory unreadable_xattr file_unreadable
        ACL_TYPE_ACCESS = Some (ERR_PTR (- EIO), ino')
      /\ IS_ERR (@ERR_PTR posix_acl (- EIO)) = true
      /\ PTR_ERR (@ERR_PTR posix_acl (- EIO)) = - EIO
      /\ get_cached_acl ino' ACL_TYPE_ACCESS = Some ACL_NOT_CACHED
      /\ i_trace ino' = i_trace file_unreadable ++ [EvXattrGet 2 0])
  /\ (exists ino',
        @pram_get_acl ref_layout ref_memory read_fails_xattr file_read_fails
          ACL_TYPE_ACCESS = Some (ERR_PTR (- EIO), ino')
        /\ IS_ERR (@ERR_PTR posix_acl (- EIO)) = true
        /\ PTR_ERR (@ERR_PTR posix_acl (- EIO)) = - EIO
        /\ get_cached_acl ino' ACL_TYPE_ACCESS = Some ACL_NOT_CACHED
        /\ i_trace ino'
           = i_trace file_read_fails ++ [EvXattrGet 2 0; EvXattrGet 2 8])
  /\ (exists ino',
        @pram_get_acl ref_layout no_memory ref_xattr file_one_record
          ACL_TYPE_ACCESS = Some (ERR_PTR (- ENOMEM), ino')
        /\ IS_ERR (@ERR_PTR posix_acl (- ENOMEM)) = true
        /\ PTR_ERR (@ERR_PTR posix_acl (- ENOMEM)) = - ENOMEM
        /\ get_cached_acl ino' ACL_TYPE_ACCESS = Some ACL_NOT_CACHED
        /\ i_trace ino' = i_trace file_one_record ++ [EvXattrGet 2 0]).
Proof.
  split; [|split].
  - apply (@pram_get_acl_store_error ref_layout ref_memory unreadable_xattr
             file_unreadable ACL_TYPE_ACCESS 2 (- EIO) [EvXattrGet 2 0]).
    + reflexivity.
    + left. split; reflexivity.
    + reflexivity.
    + unfold MAX_ERRNO, EIO. lia.
    + discriminate.
    + discriminate.
    + left. split; reflexivity.
  - apply (@pram_get_acl_store_error ref_layout ref_memory read_fails_xattr
             file_read_fails ACL_TYPE_ACCESS 2 (- EIO)
             [EvXattrGet 2 0; EvXattrGet 2 8]).
    + reflexivity.
    + left. split; reflexivity.
    + reflexivity.
    + unfold MAX_ERRNO, EIO. lia.
    + discriminate.
    + discriminate.
    + right. exists 8. split; [reflexivity|]. split; [lia|].
      right. split; [reflexivity|]. split; reflexivity.
  - apply (@pram_get_acl_store_error ref_layout no_memory ref_xattr
             file_one_record ACL_TYPE_ACCESS 2 (- ENOMEM) [EvXattrGet 2 0]).
    + reflexivity.
    + left. split; reflexivity.
    + reflexivity.
    + unfold MAX_ERRNO, ENOMEM. lia.
    + discriminate.
    + discriminate.
    + right. exists 8. split; [reflexivity|]. split; [lia|].
      left. split; [reflexivity|]. split; reflexivity.
Defined.

Lemma pram_get_acl_nothing_stored_witness :
  exists ino',
    @pram_get_acl ref_layout ref_memory ref_xattr file_empty_value
      ACL_TYPE_ACCESS = Some (NULL, ino')
    /\ get_cached_acl ino' ACL_TYPE_ACCESS = Some NULL
    /\ i_trace ino' = i_trace file_empty_value ++ [EvXattrGet 2 0].
Proof.
  apply (@pram_get_acl_nothing_stored ref_layout ref_memory ref_xattr
           file_empty_value ACL_TYPE_ACCESS 2).
  - reflexivity.
  - left. split; reflexivity.
  - reflexivity.
  - right. reflexivity.
Defined.

Lemma pram_get_acl_decodes_witness :
  exists ino',
    @pram_get_acl ref_layout ref_memory ref_xattr file_one_record
      ACL_TYPE_ACCESS
    = Some (@pram_acl_load ref_layout ref_memory (Some buf_one_record) 8,
            ino')
    /\ i_trace ino'
       = i_trace file_one_record ++ [EvXattrGet 2 0; EvXattrGet 2 8]
    /\ get_cached_acl ino' ACL_TYPE_ACCESS
       = Some (if IS_ERR (@pram_acl_load ref_layout ref_memory
                            (Some buf_one_record) 8)
               then ACL_NOT_CACHED
               else @pram_acl_load ref_layout ref_memory
                      (Some buf_one_record) 8).
Proof.
  apply (@pram_get_acl_decodes ref_layout ref_memory ref_xattr
           file_one_record ACL_TYPE_ACCESS 2 8 8 buf_one_record).
  - reflexivity.
  - left. split; reflexivity.
  - reflexivity.
  - reflexivity.
  - lia.
  - reflexivity.
  - reflexivity.
  - lia.
Defined.

Lemma pram_get_acl_frame_witness :
  exists ino',
    @pram_get_acl ref_layout ref_memory ref_xattr file_one_record
      ACL_TYPE_ACCESS
    = Some (Obj [mk_entry ACL_USER_OBJ 7 (-1)], ino')
    /\ i_mode ino' = i_mode file_one_record
    /\ i_ctime ino' = i_ctime file_one_record
    /\ i_dirty ino' = i_dirty file_one_record
    /\ i_sb ino' = i_sb file_one_record
    /\ i_xattr ino' = i_xattr file_one_record.
Proof.
  eexists. split; [vm_compute; reflexivity|].
  eapply (@pram_get_acl_frame ref_layout ref_memory ref_xattr
            file_one_record _ ACL_TYPE_ACCESS).
  vm_compute. reflexivity.
Defined.

Lemma pram_get_acl_repeat_witness :
  exists ino',
    @pram_get_acl ref_layout ref_memory ref_xattr file_one_record
      ACL_TYPE_ACCESS
    = Some (Obj [mk_entry ACL_USER_OBJ 7 (-1)], ino')
    /\ @pram_get_acl ref_layout ref_memory ref_xattr ino' ACL_TYPE_ACCESS
       = Some (Obj [mk_entry ACL_USER_OBJ 7 (-1)], ino').
Proof.
  eexists. split; [vm_compute; reflexivity|].
  apply (@pram_get_acl_repeat ref_layout ref_memory ref_xattr
           file_one_record _ ACL_TYPE_ACCESS).
  - vm_compute. reflexivity.
  - reflexivity.
Defined.

Lemma pram_get_acl_no_bug_witness :
  exists p ino',
    @pram_get_acl ref_layout ref_memory ref_xattr file_not_cached
      ACL_TYPE_DEFAULT = Some (p, ino').
Proof.
  apply pram_get_acl_no_bug. right. reflexivity.
Defined.

Lemma pram_set_acl_failed_keeps_cache_witness :
  fst (@pram_set_acl ref_layout ref_memory failing_xattr
         (ref_kernel failing_xattr true) file_cached_extended
         ACL_TYPE_ACCESS None) = - EIO
  /\ i_acl (snd (@pram_set_acl ref_layout ref_memory failing_xattr
                   (ref_kernel failing_xattr true) file_cached_extended
                   ACL_TYPE_ACCESS None))
     = i_acl file_cached_extended
  /\ i_default_acl
       (snd (@pram_set_acl ref_layout ref_memory failing_xattr
               (ref_kernel failing_xattr true) file_cached_extended
               ACL_TYPE_ACCESS None))
     = i_default_acl file_cached_extended.
Proof.
  split; [vm_compute; reflexivity|].
  apply (@pram_set_acl_failed_keeps_cache ref_layout ref_memory
           failing_xattr (ref_kernel failing_xattr true)
           file_cached_extended _ ACL_TYPE_ACCESS (- EIO) None).
  - vm_compute. reflexivity.
  - discriminate.
Defined.

Lemma pram_set_acl_then_get_witness :
  (fst (@pram_set_acl ref_layout ref_memory ref_xattr
          (ref_kernel ref_xattr true) file_not_cached
          ACL_TYPE_ACCESS (Some acl_extended)) = 0
   /\ @pram_get_acl ref_layout ref_memory ref_xattr
        (snd (@pram_set_acl ref_layout ref_memory ref_xattr
                (ref_kernel ref_xattr true) file_not_cached
                ACL_TYPE_ACCESS (Some acl_extended)))
        ACL_TYPE_ACCESS
      = Some (Obj acl_extended,
              snd (@pram_set_acl ref_layout ref_memory ref_xattr
                     (ref_kernel ref_xattr true) file_not_cached
                     ACL_TYPE_ACCESS (Some acl_extended))))
  /\ (fst (@pram_set_acl ref_layout ref_memory ref_xattr
             (ref_kernel ref_xattr true) file_cached_extended_ref
             ACL_TYPE_ACCESS None) = 0
      /\ @pram_get_acl ref_layout ref_memory ref_xattr
           (snd (@pram_set_acl ref_layout ref_memory ref_xattr
                   (ref_kernel ref_xattr true) file_cached_extended_ref
                   ACL_TYPE_ACCESS None))
           ACL_TYPE_ACCESS
         = Some (NULL,
                 snd (@pram_set_acl ref_layout ref_memory ref_xattr
                        (ref_kernel ref_xattr true) file_cached_extended_ref
                        ACL_TYPE_ACCESS None)))
  /\ (fst (@pram_set_acl ref_layout ref_memory ref_xattr
             (ref_kernel ref_xattr true) dir_plain
             ACL_TYPE_DEFAULT (Some acl_trivial_0644)) = 0
      /\ @pram_get_acl ref_layout ref_memory ref_xattr
           (snd (@pram_set_acl ref_layout ref_memory ref_xattr
                   (ref_kernel ref_xattr true) dir_plain
                   ACL_TYPE_DEFAULT (Some acl_trivial_0644)))
           ACL_TYPE_DEFAULT
         = Some (Obj acl_trivial_0644,
                 snd (@pram_set_acl ref_layout ref_memory ref_xattr
                        (ref_kernel ref_xattr true) dir_plain
                        ACL_TYPE_DEFAULT (Some acl_trivial_0644)))).
Proof.
  split; [|split]; (split; [vm_compute; reflexivity|]).
  - exact (@pram_set_acl_then_get ref_layout ref_memory ref_xattr
             (ref_kernel ref_xattr true) file_not_cached _
             ACL_TYPE_ACCESS (Some acl_extended) eq_refl eq_refl
             (or_introl eq_refl) eq_refl).
  - exact (@pram_set_acl_then_get ref_layout ref_memory ref_xattr
             (ref_kernel ref_xattr true) file_cached_extended_ref _
             ACL_TYPE_ACCESS None eq_refl eq_refl
             (or_introl eq_refl) eq_refl).
  - exact (@pram_set_acl_then_get ref_layout ref_memory ref_xattr
             (ref_kernel ref_xattr true) dir_plain _
             ACL_TYPE_DEFAULT (Some acl_trivial_0644) eq_refl eq_refl
             (or_intror (conj eq_refl eq_refl)) eq_refl).
Defined.

Lemma pram_set_acl_extended_witness :
  (exists ext_acl ino',
      @pram_acl_save ref_layout ref_memory acl_extended
      = (Obj ext_acl, @pram_acl_size ref_layout (a_count acl_extended))
      /\ @pram_set_acl ref_layout ref_memory ref_xattr
           (ref_kernel ref_xattr true) file_not_cached ACL_TYPE_ACCESS
           (Some acl_extended)
         = (fst (@pram_xattr_set ref_xattr (i_xattr file_not_cached)
                   (@PRAM_XATTR_INDEX_POSIX_ACL_ACCESS ref_xattr)
                   String.EmptyString (Obj ext_acl)
                   (@pram_acl_size ref_layout (a_count acl_extended)) 0),
            ino')
      /\ i_mode ino' = 33268
      /\ i_dirty ino' = true
      /\ i_ctime ino'
         = @CURRENT_TIME_SEC ref_xattr (ref_kernel ref_xattr true)
      /\ i_trace ino'
         = i_trace file_not_cached
           ++ [EvEquivMode 33268; EvMarkDirty;
               EvXattrSet (@PRAM_XATTR_INDEX_POSIX_ACL_ACCESS ref_xattr)
                 (Obj ext_acl)
                 (@pram_acl_size ref_layout (a_count acl_extended))]
      /\ (fst (@pram_xattr_set ref_xattr (i_xattr file_not_cached)
                 (@PRAM_XATTR_INDEX_POSIX_ACL_ACCESS ref_xattr)
                 String.EmptyString (Obj ext_acl)
                 (@pram_acl_size ref_layout (a_count acl_extended)) 0) = 0 ->
          i_acl ino' = Obj acl_extended))
  /\ (exists ino',
        @pram_set_acl ref_layout no_memory ref_xattr
          (ref_kernel ref_xattr true) file_not_cached ACL_TYPE_ACCESS
          (Some acl_extended)
        = (- ENOMEM, ino')
        /\ i_mode ino' = 33268
        /\ i_dirty ino' = true
        /\ i_xattr ino' = i_xattr file_not_cached
        /\ i_acl ino' = i_acl file_not_cached
        /\ i_trace ino'
           = i_trace file_not_cached ++ [EvEquivMode 33268; EvMarkDirty]).
Proof.
  assert (He : @posix_acl_equiv_mode ref_xattr (ref_kernel ref_xattr true)
                 acl_extended (i_mode file_not_cached) = (1, 33268))
    by (vm_compute; reflexivity).
  assert (Hv : Forall (fun e => valid_tag (e_tag e) = true) acl_extended)
    by (repeat constructor).
  split.
  - destruct (@pram_set_acl_extended ref_layout ref_memory ref_xattr
                (ref_kernel ref_xattr true) file_not_cached acl_extended
                1 33268 eq_refl eq_refl He eq_refl Hv) as [_ Hok].
    apply Hok. reflexivity.
  - destruct (@pram_set_acl_extended ref_layout no_memory ref_xattr
                (ref_kernel ref_xattr true) file_not_cached acl_extended
                1 33268 eq_refl eq_refl He eq_refl Hv) as [Hno _].
    apply Hno. reflexivity.
Defined.

Lemma pram_set_acl_default_invalid_tag_witness :
  @pram_set_acl ref_layout ref_memory ref_xattr (ref_kernel ref_xattr true)
    dir_plain ACL_TYPE_DEFAULT (Some acl_bad_tag)
  = (- EINVAL, dir_plain)
  /\ @pram_set_acl ref_layout no_memory ref_xattr
       (ref_kernel ref_xattr true) dir_plain ACL_TYPE_DEFAULT
       (Some acl_bad_tag)
     = (- ENOMEM, dir_plain).
Proof.
  assert (H : Exists (fun e => valid_tag (e_tag e) = false) acl_bad_tag).
  { apply Exists_cons_tl. apply Exists_cons_hd. reflexivity. }
  split.
  - exact (@pram_set_acl_default_invalid_tag ref_layout ref_memory ref_xattr
             (ref_kernel ref_xattr true) dir_plain acl_bad_tag
             eq_refl eq_refl H).
  - exact (@pram_set_acl_default_invalid_tag ref_layout no_memory ref_xattr
             (ref_kernel ref_xattr true) dir_plain acl_bad_tag
             eq_refl eq_refl H).
Defined.


Lemma pram_xattr_set_acl_not_owner_witness :
  @pram_xattr_set_acl ref_layout ref_memory ref_xattr
    (ref_kernel ref_xattr false) (mk_dentry ref_xattr file_not_cached)
    String.EmptyString (Some buf_one_record) 8 0 ACL_TYPE_ACCESS
  = (- EPERM, file_not_cached).
Proof.
  apply (@pram_xattr_set_acl_not_owner ref_layout ref_memory ref_xattr
           (ref_kernel ref_xattr false)
           (mk_dentry ref_xattr file_not_cached)); reflexivity.
Defined.

Lemma pram_xattr_set_acl_invalid_witness :
  @pram_xattr_set_acl ref_layout ref_memory ref_xattr
    (rejecting_kernel ref_xattr) (mk_dentry ref_xattr file_not_cached)
    String.EmptyString (Some buf_one_record) 8 0 ACL_TYPE_ACCESS
  = (- EINVAL, file_not_cached).
Proof.
  apply (@pram_xattr_set_acl_invalid ref_layout ref_memory ref_xattr
           (rejecting_kernel ref_xattr)
           (mk_dentry ref_xattr file_not_cached)).
  - reflexivity.
  - reflexivity.
  - left. reflexivity.
Defined.

Lemma pram_xattr_get_acl_no_value_witness :
  (exists ino',
      @pram_xattr_get_acl ref_layout ref_memory ref_xattr ref_kernel_acl
        (mk_dentry ref_xattr file_not_cached) String.EmptyString
        (Some list_32) 32 ACL_TYPE_ACCESS
      = Some (- ENODATA, ino', Some list_32)
      /\ i_xattr ino' = i_xattr file_not_cached)
  /\ (exists ino',
        @pram_xattr_get_acl ref_layout ref_memory unsupported_xattr
          ref_kernel_acl (mk_dentry unsupported_xattr file_unsupported)
          String.EmptyString (Some list_32) 32 ACL_TYPE_ACCESS
        = Some (- ENODATA, ino', Some list_32)
        /\ i_xattr ino' = i_xattr file_unsupported)
  /\ (exists ino',
        @pram_xattr_get_acl ref_layout ref_memory read_fails_xattr
          ref_kernel_acl (mk_dentry read_fails_xattr file_read_fails)
          String.EmptyString (Some list_32) 32 ACL_TYPE_ACCESS
        = Some (- EIO, ino', Some list_32)
        /\ i_xattr ino' = i_xattr file_read_fails)
  /\ (exists ino',
        @pram_xattr_get_acl ref_layout no_memory ref_xattr
          ref_kernel_acl (mk_dentry ref_xattr file_one_record)
          String.EmptyString (Some list_32) 32 ACL_TYPE_ACCESS
        = Some (- ENOMEM, ino', Some list_32)
        /\ i_xattr ino' = i_xattr file_one_record).
Proof.
  split; [|split; [|split]].
  - apply (@pram_xattr_get_acl_no_value ref_layout ref_memory ref_xattr
             ref_kernel_acl (mk_dentry ref_xattr file_not_cached)
             (Some list_32) 32 ACL_TYPE_ACCESS 2 (- ENODATA)).
    + reflexivity.
    + left. split; reflexivity.
    + right. split; [reflexivity|]. exists (- ENODATA).
      split; [reflexivity|]. left.
      split; [unfold MAX_ERRNO, ENODATA; lia|reflexivity].
  - apply (@pram_xattr_get_acl_no_value ref_layout ref_memory
             unsupported_xattr ref_kernel_acl
             (mk_dentry unsupported_xattr file_unsupported)
             (Some list_32) 32 ACL_TYPE_ACCESS 2 (- ENODATA)).
    + reflexivity.
    + left. split; reflexivity.
    + right. split; [reflexivity|]. exists (- ENOSYS).
      split; [reflexivity|]. left.
      split; [unfold MAX_ERRNO, ENOSYS; lia|reflexivity].
  - apply (@pram_xattr_get_acl_no_value ref_layout ref_memory
             read_fails_xattr ref_kernel_acl
             (mk_dentry read_fails_xattr file_read_fails)
             (Some list_32) 32 ACL_TYPE_ACCESS 2 (- EIO)).
    + reflexivity.
    + left. split; reflexivity.
    + right. split; [reflexivity|]. exists 8.
      split; [reflexivity|]. right. right.
      split; [lia|]. split; [reflexivity|]. exists (- EIO).
      split; [reflexivity|].
      split; [unfold MAX_ERRNO, EIO; lia|reflexivity].
  - apply (@pram_xattr_get_acl_no_value ref_layout no_memory ref_xattr
             ref_kernel_acl (mk_dentry ref_xattr file_one_record)
             (Some list_32) 32 ACL_TYPE_ACCESS 2 (- ENOMEM)).
    + reflexivity.
    + left. split; reflexivity.
    + right. split; [reflexivity|]. exists 8.
      split; [reflexivity|]. right. left.
      split; [lia|]. split; reflexivity.
Defined.

Lemma pram_xattr_list_acl_written_witness :
  (exists l',
      @pram_xattr_list_acl_access ref_xattr
        (mk_dentry ref_xattr file_not_cached) (Some list_24) 24
        String.EmptyString 0 ACL_TYPE_ACCESS
      = (24, Some l')
      /\ firstn 24 l' = literal POSIX_ACL_XATTR_ACCESS
      /\ skipn 24 l' = skipn 24 list_24
      /\ length l' = length list_24)
  /\ (exists l',
        @pram_xattr_list_acl_default ref_xattr
          (mk_dentry ref_xattr file_not_cached) (Some list_32) 32
          String.EmptyString 0 ACL_TYPE_DEFAULT
        = (25, Some l')
        /\ firstn 25 l' = literal POSIX_ACL_XATTR_DEFAULT
        /\ skipn 25 l' = skipn 25 list_32
        /\ length l' = length list_32).
Proof.
  destruct (@pram_xattr_list_acl_written ref_xattr
              (mk_dentry ref_xattr file_not_cached) list_24 24
              String.EmptyString 0 ACL_TYPE_ACCESS eq_refl) as [H1 _].
  { change (Z.of_nat (length list_24)) with 24. lia. }
  destruct (@pram_xattr_list_acl_written ref_xattr
              (mk_dentry ref_xattr file_not_cached) list_32 32
              String.EmptyString 0 ACL_TYPE_DEFAULT eq_refl) as [_ H2].
  { change (Z.of_nat (length list_32)) with 32. lia. }
  split; [apply H1; lia|apply H2; lia].
Defined.

Lemma pram_acl_chmod_nothing_witness :
  exists ino',
    @pram_acl_chmod ref_layout ref_memory ref_xattr
      (ref_kernel ref_xattr true) ref_kernel_acl file_not_cached
    = Some (0, ino')
    /\ i_mode ino' = i_mode file_not_cached
    /\ i_xattr ino' = i_xattr file_not_cached.
Proof.
  apply (@pram_acl_chmod_nothing ref_layout ref_memory ref_xattr
           (ref_kernel ref_xattr true) ref_kernel_acl file_not_cached).
  right. split; [reflexivity|]. split; [reflexivity|].
  right. split; reflexivity.
Defined.

Lemma pram_acl_chmod_error_witness :
  @pram_acl_chmod ref_layout ref_memory ref_xattr
    (ref_kernel ref_xattr true) refusing_kernel_acl file_cached_extended_ref
  = Some (- ENOMEM, file_cached_extended_ref).
Proof.
  apply (@pram_acl_chmod_error ref_layout ref_memory ref_xattr
           (ref_kernel ref_xattr true) refusing_kernel_acl
           file_cached_extended_ref (- ENOMEM)).
  - reflexivity.
  - right. split; [reflexivity|]. split; [discriminate|].
    exists acl_extended. split; reflexivity.
Defined.

Lemma pram_init_acl_symlink_witness :
  @pram_init_acl ref_layout ref_memory ref_xattr (ref_kernel ref_xattr true)
    ref_kernel_acl symlink_acl_on dir_with_default
  = Some (0, symlink_acl_on, dir_with_default).
Proof.
  apply (@pram_init_acl_symlink ref_layout ref_memory ref_xattr
           (ref_kernel ref_xattr true) ref_kernel_acl symlink_acl_on
           dir_with_default).
  reflexivity.
Defined.

(** Under a directory without default ACL and with umask 022, a file
    requested with mode 0666 gets mode 0644. *)
Lemma pram_init_acl_no_default_witness :
  exists dir',
    @pram_init_acl ref_layout ref_memory ref_xattr
      (ref_kernel ref_xattr true) ref_kernel_acl new_file_0666 dir_plain
    = Some (0, with_mode new_file_0666 33188, dir').
Proof.
  eexists.
  apply (@pram_init_acl_no_default ref_layout ref_memory ref_xattr
           (ref_kernel ref_xattr true) ref_kernel_acl new_file_0666
           dir_plain).
  - reflexivity.
  - right. split; reflexivity.
Defined.

Lemma pram_init_acl_inherit_file_witness :
  @pram_init_acl ref_layout ref_memory ref_xattr (ref_kernel ref_xattr true)
    ref_kernel_acl file_not_cached dir_with_default
  = Some (@pram_set_acl ref_layout ref_memory ref_xattr
            (ref_kernel ref_xattr true) (with_mode file_not_cached 33268)
            ACL_TYPE_ACCESS (Some acl_extended),
          dir_with_default).
Proof.
  exact (@pram_init_acl_inherit_file ref_layout ref_memory ref_xattr
           (ref_kernel ref_xattr true) ref_kernel_acl file_not_cached
           dir_with_default dir_with_default acl_extended 1 33268
           (Some acl_extended) eq_refl eq_refl eq_refl eq_refl eq_refl
           eq_refl).
Defined.

Lemma pram_init_acl_directory_default_fails_witness :
  exists ino1,
    @pram_init_acl ref_layout ref_memory failing_xattr
      (ref_kernel failing_xattr true) ref_kernel_acl new_dir_failing
      dir_with_default_failing
    = Some (- EIO, ino1, dir_with_default_failing)
    /\ i_mode ino1 = i_mode new_dir_failing
    /\ i_acl ino1 = i_acl new_dir_failing.
Proof.
  eexists.
  apply (@pram_init_acl_directory_default_fails ref_layout ref_memory
           failing_xattr (ref_kernel failing_xattr true) ref_kernel_acl
           new_dir_failing _ dir_with_default_failing
           dir_with_default_failing acl_extended (- EIO)).
  - reflexivity.
  - reflexivity.
  - reflexivity.
  - reflexivity.
  - vm_compute. reflexivity.
  - discriminate.
Defined.
